(** * Model download and listing scripts: a shallow embedding

    This development embeds the two scripts of the repository,
    [scripts/download_models.py] and [scripts/list_files.py], and proves
    properties of the download orchestration, of the size formatting and of
    the listing filter.

    - Python [int] is [Z]; Python [float] is IEEE 754 binary64, taken from
      the specification of floating-point arithmetic of the standard library
      ([spec_float], precision 53, [emax] 1024).
    - [print] appends one line to the console output.
    - The filesystem is a finite map from locations to nodes, with a
      working directory; paths are resolved component by component as the
      kernel does ([.], [..], repeated and trailing slashes), without
      symbolic links or permissions.
    - The fetch service ([hf_hub_download]) and the listing service
      ([list_repo_files]) are parameters: any function of the right shape.
    - A Python exception is an early exit carrying the exception's class
      and text; [try ... except Exception] is [try_except], which lets
      through what is not an [Exception]. *)

From Stdlib Require Import ZArith String Ascii DecimalString Lia.
From Stdlib Require Import Floats.SpecFloat.
From stdpp Require Import gmap strings list.

Local Open Scope Z_scope.

(* ===================================================================== *)
(** * Part I: definitions *)
(* ===================================================================== *)

(** ** Python numbers *)

(** binary64 *)
Definition prec : Z := 53.
Definition emax : Z := 1024.

(** [float(n)] for an [int] [n]: round to nearest, ties to even; Python
    raises [OverflowError] when the result is not finite. *)
Definition float_of_int (n : Z) : option spec_float :=
  match binary_normalize prec emax n 0 false with
  | S754_infinity _ => None
  | x => Some x
  end.

(** The literal [1024.0], that is 2^52 * 2^(-42). *)
Definition f1024 : spec_float := S754_finite false 4503599627370496 (-42).

(** The value of the variable [size_bytes] of [format_file_size]: it holds
    an [int] on entry and a [float] after the first [size_bytes /= 1024.0]. *)
Inductive pynum : Type :=
  | PyInt (n : Z)
  | PyFloat (x : spec_float).

(** [size_bytes < 1024.0]. Python compares an [int] with a [float] by their
    exact values, so for an [int] this is the integer comparison. *)
Definition lt_1024 (v : pynum) : bool :=
  match v with
  | PyInt n => n <? 1024
  | PyFloat x => SFltb x f1024
  end.

Definition to_float (v : pynum) : option spec_float :=
  match v with
  | PyInt n => float_of_int n
  | PyFloat x => Some x
  end.

(** [size_bytes /= 1024.0]: an [int] operand is converted first. *)
Definition div_1024 (v : pynum) : option pynum :=
  match to_float v with
  | Some x => Some (PyFloat (SFdiv prec emax x f1024))
  | None => None
  end.

(** ** Decimal text *)

(** [str(n)] for a non-negative [int]. *)
Definition str_nat (n : Z) : string :=
  NilEmpty.string_of_uint (N.to_uint (Z.to_N n)).

(** [str(n)] for an [int], as an f-string renders [{n}]. *)
Definition str_int (n : Z) : string :=
  if n <? 0 then "-" +:+ str_nat (- n) else str_nat n.

(** [a / b] rounded to the nearest integer, ties to the even one
    ([0 <= a], [0 < b]). *)
Definition div_half_even (a b : Z) : Z :=
  let q := a / b in
  let r := a mod b in
  match 2 * r ?= b with
  | Lt => q
  | Gt => q + 1
  | Eq => if Z.even q then q else q + 1
  end.

(** The number of tenths nearest to [m * 2^e]. *)
Definition tenths (m : positive) (e : Z) : Z :=
  if 0 <=? e then 10 * Z.pos m * 2 ^ e
  else div_half_even (10 * Z.pos m) (2 ^ (- e)).

(** A count of tenths written with one digit after the point. *)
Definition one_decimal (q : Z) : string :=
  str_nat (q / 10) +:+ "." +:+ str_nat (q mod 10).

(** The format specification [.1f] applied to a [float]: the exact binary
    value correctly rounded to one digit after the point. *)
Definition format_1f (x : spec_float) : string :=
  match x with
  | S754_nan => "nan"
  | S754_infinity s => if s then "-inf" else "inf"
  | S754_zero s => if s then "-0.0" else "0.0"
  | S754_finite s m e =>
      (if s then "-" else "") +:+ one_decimal (tenths m e)
  end.

(** [f"{size_bytes:.1f} {unit}"]; an [int] is converted to [float] by the
    format specification. *)
Definition fmt_unit (v : pynum) (unit : string) : option string :=
  match to_float v with
  | Some x => Some (format_1f x +:+ " " +:+ unit)
  | None => None
  end.

(** ** [format_file_size] *)

(** The [for unit in [...]] loop of [format_file_size], then the final
    [return f"{size_bytes:.1f} TB"]. *)
Fixpoint format_loop (units : list string) (v : pynum) : option string :=
  match units with
  | [] => fmt_unit v "TB"
  | unit :: rest =>
      if lt_1024 v then fmt_unit v unit
      else match div_1024 v with
           | Some v' => format_loop rest v'
           | None => None
           end
  end.

(** [None] stands for the [OverflowError] of converting too large an
    [int]. *)
Definition format_file_size (size_bytes : Z) : option string :=
  if size_bytes =? 0 then Some "0 B"
  else format_loop ["B"; "KB"; "MB"; "GB"] (PyInt size_bytes).

(** ** Strings *)

Definition nl : string := String "010"%char EmptyString.

(** [s * n] *)
Fixpoint str_repeat (s : string) (n : nat) : string :=
  match n with
  | O => ""
  | S n' => s +:+ str_repeat s n'
  end.

(** [s.startswith(p)] *)
Definition startswith (s p : string) : bool := String.prefix p s.

(** [s.endswith(suffix)]: the last [len(suffix)] characters of [s] are
    [suffix]. *)
Definition endswith (s suffix : string) : bool :=
  let n := String.length s in
  let k := String.length suffix in
  (k <=? n)%nat && String.eqb (String.substring (n - k) k s) suffix.

(** ** Paths *)

(** [os.path.join(a, b)] of [posixpath]. *)
Definition os_path_join (a b : string) : string :=
  if startswith b "/" then b
  else if String.eqb a "" || endswith a "/" then a +:+ b
  else a +:+ "/" +:+ b.

(** The pieces of [s] between its slashes; [cur] is the piece being read. *)
Fixpoint split_slash (cur s : string) : list string :=
  match s with
  | EmptyString => [cur]
  | String c s' =>
      if Ascii.eqb c "/" then cur :: split_slash "" s'
      else split_slash (cur +:+ String c EmptyString) s'
  end.

(** A component that [pathlib] keeps: not empty and not [.]. *)
Definition is_name (c : string) : bool :=
  negb (String.eqb c "") && negb (String.eqb c ".").

(** [Path(s).parts]: the components of [s] without the empty ones and
    the [.] ones, after the marker ["/"] when [s] is absolute; [..] is
    kept. *)
Definition path_parts (s : string) : list string :=
  let names := List.filter is_name (split_slash "" s) in
  if startswith s "/" then "/"%string :: names else names.

(** ** The filesystem *)

(** A file size as [stat] reports it ([st_size], an [off_t]): a
    non-negative 64-bit signed integer. *)
Record off_t : Type := mk_off_t {
  off_val :> Z;
  off_ok : (0 <=? off_val) && (off_val <? 2 ^ 63) = true
}.

Notation "'bytes' n" := (mk_off_t n eq_refl) (at level 9, n at level 9).

Inductive node : Type :=
  | File (size : off_t)
  | Dir (size : off_t).

Definition node_size (n : node) : off_t :=
  match n with File s => s | Dir s => s end.

Definition node_is_dir (n : node) : bool :=
  match n with File _ => false | Dir _ => true end.

(** The size reported for a directory that was just created. *)
Definition new_dir_size : off_t := bytes 4096.

(** The filesystem as the process sees it (no symbolic links, no
    permissions): the nodes by their location, which is the list of names
    that leads to them from the root [[]], and the working directory. The
    working directory and the directories above it, up to the root, always
    exist. *)
Record filesystem : Type := mk_fs {
  fs_nodes : gmap (list string) node;
  fs_cwd : list string
}.

Definition always_there (fs : filesystem) (loc : list string) : bool :=
  bool_decide (loc `prefix_of` fs_cwd fs).

(** The node at a location. *)
Definition fs_stat (fs : filesystem) (loc : list string) : option node :=
  if always_there fs loc then Some (Dir new_dir_size) else fs_nodes fs !! loc.

(** The filesystem with the node [n] put at [loc]. *)
Definition fs_put (loc : list string) (n : node) (fs : filesystem) : filesystem :=
  mk_fs (<[loc := n]> (fs_nodes fs)) (fs_cwd fs).

(** The errors of the system calls used here. *)
Inductive errno : Type := ENOENT | ENOTDIR | EEXIST.

(** Where a path starts: at the root when it is absolute. *)
Definition start (fs : filesystem) (absolute : bool) : list string :=
  if absolute then [] else fs_cwd fs.

(** One component [c] of a path, followed from the directory [cur]:
    empty components and [.] stay, [..] goes up (the root is its own
    parent), a name goes down. *)
Definition step (cur : list string) (c : string) : list string :=
  if String.eqb c "" || String.eqb c "." then cur
  else if String.eqb c ".." then removelast cur
  else cur ++ [c].

(** Path resolution by the kernel: every component is followed from a
    location that must exist and be a directory. The location reached by
    the last component is returned, whether something is there or not. *)
Fixpoint walk (fs : filesystem) (cur : list string) (comps : list string)
  : errno + list string :=
  match comps with
  | [] => inr cur
  | c :: rest =>
      match fs_stat fs cur with
      | None => inl ENOENT
      | Some (File _) => inl ENOTDIR
      | Some (Dir _) => walk fs (step cur c) rest
      end
  end.

(** [os.stat(path)] for a path given as text: the empty text names
    nothing; a trailing slash is an empty last component, so it asks for a
    directory. *)
Definition stat_errno (fs : filesystem) (path : string) : errno + node :=
  if String.eqb path "" then inl ENOENT
  else match walk fs (start fs (startswith path "/")) (split_slash "" path) with
       | inl e => inl e
       | inr loc =>
           match fs_stat fs loc with
           | Some n => inr n
           | None => inl ENOENT
           end
       end.

Definition stat (fs : filesystem) (path : string) : option node :=
  match stat_errno fs path with
  | inr n => Some n
  | inl _ => None
  end.

(** A [pathlib] path, [Path(s)]: whether it is absolute, and its names,
    which are the components of [s] without the empty ones and the [.]
    ones; [..] is kept. Its text is the names joined by slashes (after the
    root slash when absolute), or [.] when a relative path has no name;
    a path that begins with exactly two slashes keeps both in its text
    and is resolved as with one. *)
Definition pure_path (s : string) : bool * list string :=
  (startswith s "/", List.filter is_name (split_slash "" s)).

Definition path_text (absolute : bool) (names : list string) : string :=
  match names with
  | [] => if absolute then "/" else "."
  | _ => (if absolute then "/" else "") +:+ String.concat "/" names
  end.

(** [Path.is_dir()]: [stat] says directory; any error is [False]. *)
Definition is_dir (fs : filesystem) (absolute : bool) (names : list string)
  : bool :=
  match walk fs (start fs absolute) names with
  | inr loc =>
      match fs_stat fs loc with
      | Some (Dir _) => true
      | _ => false
      end
  | inl _ => false
  end.

(** The last step of [mkdir(2)] in the directory [parent]: the last
    component must be a name that is not taken. *)
Definition mkdir_last (fs : filesystem) (parent : list string) (last : string)
  : errno + filesystem :=
  if negb (is_name last) || String.eqb last ".." then inl EEXIST
  else match fs_stat fs (parent ++ [last]) with
       | Some _ => inl EEXIST
       | None => inr (fs_put (parent ++ [last]) (Dir new_dir_size) fs)
       end.

(** [mkdir(2)] from the location [cur] with the components [names]: all
    but the last are followed as by [walk]; no component at all is the
    path [.] or [/], which exists. *)
Fixpoint mkdir_at (fs : filesystem) (cur : list string) (names : list string)
  : errno + filesystem :=
  match names with
  | [] => inl EEXIST
  | c :: rest =>
      match fs_stat fs cur with
      | None => inl ENOENT
      | Some (File _) => inl ENOTDIR
      | Some (Dir _) =>
          match rest with
          | [] => mkdir_last fs cur c
          | _ :: _ => mkdir_at fs (step cur c) rest
          end
      end
  end.

(** [os.mkdir(p)] for a [pathlib] path [p]. *)
Definition os_mkdir (fs : filesystem) (absolute : bool) (names : list string)
  : errno + filesystem :=
  mkdir_at fs (start fs absolute) names.

(** [Path.mkdir(parents=False, exist_ok=True)]: [FileNotFoundError] is
    raised again; any other [OSError] is raised again unless the path is a
    directory. The error is returned with the names of the path at which
    it was raised. *)
Definition path_mkdir_one (absolute : bool) (names : list string)
    (fs : filesystem) : option (errno * list string) * filesystem :=
  match os_mkdir fs absolute names with
  | inr fs' => (None, fs')
  | inl ENOENT => (Some (ENOENT, names), fs)
  | inl e =>
      if is_dir fs absolute names then (None, fs) else (Some (e, names), fs)
  end.

(** [Path.mkdir(parents=True, exist_ok=True)]. On [FileNotFoundError]
    the method creates [self.parent] in the same way and then [self] with
    [parents=False], unless [self.parent == self], which holds exactly for
    a path without names. The parent has one name less, and [n] counts the
    names. *)
Fixpoint path_mkdir_parents (n : nat) (absolute : bool) (names : list string)
    (fs : filesystem) : option (errno * list string) * filesystem :=
  match os_mkdir fs absolute names with
  | inr fs' => (None, fs')
  | inl ENOENT =>
      match n, names with
      | S n', _ :: _ =>
          match path_mkdir_parents n' absolute (removelast names) fs with
          | (None, fs1) => path_mkdir_one absolute names fs1
          | (Some e, fs1) => (Some e, fs1)
          end
      | _, _ => (Some (ENOENT, names), fs)
      end
  | inl e =>
      if is_dir fs absolute names then (None, fs) else (Some (e, names), fs)
  end.

(** [Path(path).mkdir(parents=True, exist_ok=True)] on a filesystem: the
    error if one is raised, and the filesystem left, in which directories
    may have been created before the error. *)
Definition mkdir_run (path : string) (fs : filesystem)
  : option (errno * list string) * filesystem :=
  let '(absolute, names) := pure_path path in
  path_mkdir_parents (length names) absolute names fs.

(** The filesystem left when the directory could be ensured. *)
Definition mkdir_p (path : string) (fs : filesystem) : option filesystem :=
  match mkdir_run path fs with
  | (None, fs') => Some fs'
  | (Some _, _) => None
  end.

(** ** The world and the monad of the scripts *)

(** One call of the fetch service: [(repo_id, filename, local_dir)]. *)
Definition fetch_call : Type := string * string * string.

Record world : Type := mk_world {
  w_fs : filesystem;                   (** the filesystem *)
  w_out : list string;                 (** the lines printed so far *)
  w_fetches : list fetch_call          (** the calls of the fetch service *)
}.

(** A raised exception, with the name of its class and its text
    ([str(e)]): an instance of [Exception], which [except Exception]
    catches, or of another class ([KeyboardInterrupt], [SystemExit],
    [GeneratorExit]), which it lets through. *)
Inductive exn : Type :=
  | Exception (class message : string)
  | BaseException (class message : string).

Definition exn_class (e : exn) : string :=
  match e with Exception c _ => c | BaseException c _ => c end.

(** The [OSError] for an [errno] at a path; [repr(path)] is written for
    a path without quotes, backslashes or control characters. *)
Definition os_error (e : errno) (path : string) : exn :=
  match e with
  | ENOENT =>
      Exception "FileNotFoundError"
        ("[Errno 2] No such file or directory: '" +:+ path +:+ "'")
  | ENOTDIR =>
      Exception "NotADirectoryError"
        ("[Errno 20] Not a directory: '" +:+ path +:+ "'")
  | EEXIST =>
      Exception "FileExistsError"
        ("[Errno 17] File exists: '" +:+ path +:+ "'")
  end.

(** The result of running a piece of a script: a value, or a raised
    exception; either way with the world it left. *)
Inductive outcome (A : Type) : Type :=
  | Done (a : A) (w : world)
  | Raised (e : exn) (w : world).
Arguments Done {A} a w.
Arguments Raised {A} e w.

Definition M (A : Type) : Type := world -> outcome A.

Definition ret {A} (a : A) : M A := fun w => Done a w.

Definition bind {A B} (c : M A) (k : A -> M B) : M B :=
  fun w => match c w with
           | Done a w' => k a w'
           | Raised e w' => Raised e w'
           end.

Definition raise {A} (e : exn) : M A := fun w => Raised e w.

(** [try: body except Exception as e: handler(str(e))]: an exception
    that is not an [Exception] goes through. *)
Definition try_except {A} (body : M A) (handler : string -> M A) : M A :=
  fun w => match body w with
           | Done a w' => Done a w'
           | Raised (Exception _ message) w' => handler message w'
           | Raised (BaseException class message) w' =>
               Raised (BaseException class message) w'
           end.

(** The value a run ended with, the class of the exception it ended
    with, and the world it left. *)
Definition result_of {A} (o : outcome A) : option A :=
  match o with Done a _ => Some a | Raised _ _ => None end.

Definition raised_by {A} (o : outcome A) : option string :=
  match o with Done _ _ => None | Raised e _ => Some (exn_class e) end.

Definition world_of {A} (o : outcome A) : world :=
  match o with Done _ w => w | Raised _ w => w end.

Declare Scope py_scope.
Delimit Scope py_scope with py.
Notation "'let*' x ':=' c 'in' k" := (bind c (fun x => k))
  (at level 10, x pattern, c at level 100, k at level 200) : py_scope.
Notation "c ';;;' k" := (bind c (fun _ => k))
  (at level 100, k at level 200, right associativity) : py_scope.
Local Open Scope py_scope.

(** [print(line)] *)
Definition print (line : string) : M unit :=
  fun w => Done tt (mk_world (w_fs w) (w_out w ++ [line]) (w_fetches w)).

(** An [option] whose [None] is the exception [e]. *)
Definition or_raise {A} (e : exn) (o : option A) : M A :=
  match o with Some a => ret a | None => raise e end.

(** [os.path.exists(path)]: [os.stat] succeeds. *)
Definition os_path_exists (path : string) : M bool :=
  fun w => Done (bool_decide (is_Some (stat (w_fs w) path))) w.

(** [os.path.getsize(path)]: [os.stat(path).st_size]. *)
Definition os_path_getsize (path : string) : M Z :=
  fun w => match stat_errno (w_fs w) path with
           | inr n => Done (off_val (node_size n)) w
           | inl e => Raised (os_error e path) w
           end.

(** [Path(path).mkdir(parents=True, exist_ok=True)] *)
Definition path_mkdir (path : string) : M unit :=
  fun w => match mkdir_run path (w_fs w) with
           | (None, fs') => Done tt (mk_world fs' (w_out w) (w_fetches w))
           | (Some (e, names), fs') =>
               Raised (os_error e (path_text (fst (pure_path path)) names))
                 (mk_world fs' (w_out w) (w_fetches w))
           end.

(** [format_file_size] as a call that may raise. *)
Definition call_format_file_size (size_bytes : Z) : M string :=
  or_raise (Exception "OverflowError" "int too large to convert to float")
    (format_file_size size_bytes).
(** ** [scripts/download_models.py] *)

(** An entry of [MODELS]. *)
Record model_info : Type := mk_model_info {
  repo_id : string;
  filename : string;
  local_dir : string;
  description : string
}.

Definition MODELS : list model_info :=
  [ mk_model_info "irish-quant/Qwen-Qwen2.5-Coder-3B-Instruct-2bit"
                  "Qwen2.5-Coder-3B-Instruct-Q2_K.gguf"
                  "models/2bit"
                  "2-bit quantized (0.5B, smallest, fastest)";
    mk_model_info "irish-quant/Qwen-Qwen2.5-Coder-3B-Instruct-3bit"
                  "Qwen2.5-Coder-3B-Instruct-Q3_K_M.gguf"
                  "models/3bit"
                  "3-bit quantized (0.6B, balanced)";
    mk_model_info "irish-quant/Qwen-Qwen2.5-Coder-3B-Instruct-4bit"
                  "Qwen2.5-Coder-3B-Instruct-Q4_K_M.gguf"
                  "models/4bit"
                  "4-bit quantized (highest quality)" ].

(** What the fetch service answers: the path of the local file; or an
    exception that is an [Exception], with its text; or one that is not
    ([KeyboardInterrupt] when the user interrupts the download,
    [SystemExit]), with the name of its class. *)
Inductive fetch_reply : Type :=
  | Fetched (path : string)
  | FetchError (e : string)
  | FetchAbort (class : string).

(** The fetch service, [huggingface_hub.hf_hub_download], is outside the
    repository: any function from the request [(repo_id, filename,
    local_dir)] and the filesystem it finds to an answer and the filesystem
    it leaves. *)
Definition fetch_service : Type :=
  string -> string -> string -> filesystem -> fetch_reply * filesystem.

Section DownloadModels.

Variable hf_hub_download : fetch_service.

(** The call [hf_hub_download(repo_id=..., filename=..., local_dir=...,
    local_dir_use_symlinks=False)]; the call is recorded. *)
Definition call_hf_hub_download (repo filename dir : string) : M string :=
  fun w =>
    let '(reply, fs') := hf_hub_download repo filename dir (w_fs w) in
    let w' := mk_world fs' (w_out w) (w_fetches w ++ [(repo, filename, dir)]) in
    match reply with
    | Fetched path => Done path w'
    | FetchError e => Raised (Exception "Exception" e) w'
    | FetchAbort class => Raised (BaseException class "") w'
    end.

Definition create_directory (path : string) : M unit :=
  path_mkdir path ;;;
  print ("✓ Created directory: " +:+ path).

Definition file_exists (file_path : string) : M (bool * Z) :=
  let* found := os_path_exists file_path in
  if found then
    let* size := os_path_getsize file_path in
    ret (true, size)
  else ret (false, 0).

(** The [try] block of [download_model]. *)
Definition download_attempt (repo_id filename local_dir : string) : M bool :=
  print "   Downloading... (this may take a while)" ;;;
  let* downloaded_path := call_hf_hub_download repo_id filename local_dir in
  let* found := os_path_exists downloaded_path in
  if found then
    let* file_size := os_path_getsize downloaded_path in
    print ("✓ Successfully downloaded: " +:+ downloaded_path) ;;;
    let* text := call_format_file_size file_size in
    print ("  Size: " +:+ text) ;;;
    ret true
  else
    print ("❌ Download failed: File not found at " +:+ downloaded_path) ;;;
    ret false.

(** The part of [download_model] from the existence check on. *)
Definition download_checked (repo_id filename local_dir : string) : M bool :=
  let file_path := os_path_join local_dir filename in
  let* (found, existing_size) := file_exists file_path in
  if found then
    print ("✓ File already exists: " +:+ file_path) ;;;
    let* text := call_format_file_size existing_size in
    print ("  Size: " +:+ text) ;;;
    ret true
  else
    try_except
      (download_attempt repo_id filename local_dir)
      (fun e =>
         print ("❌ Error downloading " +:+ filename +:+ ": " +:+ e) ;;;
         ret false).

Definition download_model (model_info : model_info) : M bool :=
  let repo_id := repo_id model_info in
  let filename := filename model_info in
  let local_dir := local_dir model_info in
  let description := description model_info in
  print (nl +:+ "📥 Downloading " +:+ description) ;;;
  print ("   Repository: " +:+ repo_id) ;;;
  print ("   File: " +:+ filename) ;;;
  print ("   Directory: " +:+ local_dir) ;;;
  create_directory local_dir ;;;
  download_checked repo_id filename local_dir.

(** The body of the loop of [main] for the [i]-th entry, [count] being
    [len(MODELS)]; the pair is [(success_count, total_size)]. *)
Definition main_step (count i : Z) (model_info : model_info)
    (acc : Z * Z) : M (Z * Z) :=
  let '(success_count, total_size) := acc in
  print (nl +:+ "[" +:+ str_int i +:+ "/" +:+ str_int count +:+ "] Processing "
         +:+ description model_info) ;;;
  let* ok := download_model model_info in
  if ok then
    let success_count := success_count + 1 in
    let file_path := os_path_join (local_dir model_info) (filename model_info) in
    let* found := os_path_exists file_path in
    if found then
      let* size := os_path_getsize file_path in
      ret (success_count, total_size + size)
    else ret (success_count, total_size)
  else
    print ("❌ Failed to download " +:+ filename model_info) ;;;
    ret (success_count, total_size).

(** [for i, model_info in enumerate(models, i): ...] *)
Fixpoint main_loop (count i : Z) (models : list model_info)
    (acc : Z * Z) : M (Z * Z) :=
  match models with
  | [] => ret acc
  | model_info :: rest =>
      let* acc' := main_step count i model_info acc in
      main_loop count (i + 1) rest acc'
  end.

(** The summary printed after the loop. *)
Definition print_summary (count success_count total_size : Z) : M unit :=
  print (nl +:+ str_repeat "=" 50) ;;;
  print "📊 Download Summary" ;;;
  print (str_repeat "=" 50) ;;;
  print ("✓ Successfully downloaded: " +:+ str_int success_count +:+ "/"
         +:+ str_int count +:+ " models") ;;;
  let* text := call_format_file_size total_size in
  print ("📦 Total size: " +:+ text) ;;;
  if success_count =? count then
    print (nl +:+ "🎉 All models downloaded successfully!") ;;;
    print (nl +:+ "Next steps:") ;;;
    print "1. Copy models to app/src/main/assets/models/" ;;;
    print "2. Build the project: ./gradlew assembleDebug" ;;;
    print "3. Install on device: adb install app/build/outputs/apk/debug/app-debug.apk"
  else
    print (nl +:+ "⚠️  " +:+ str_int (count - success_count)
           +:+ " model(s) failed to download") ;;;
    print "Please check your internet connection and try again".

(** [main], for a list of entries in the place of the constant
    [MODELS]. *)
Definition main_on (models : list model_info) : M unit :=
  let count := Z.of_nat (length models) in
  print "Mobile LLM Battery Benchmark - Model Downloader" ;;;
  print (str_repeat "=" 50) ;;;
  print ("Total models: " +:+ str_int count) ;;;
  print "Models: Qwen2.5-Coder-3B-Instruct (2bit, 3bit, 4bit)" ;;;
  let* (success_count, total_size) := main_loop count 1 models (0, 0) in
  print_summary count success_count total_size.

Definition main : M unit := main_on MODELS.

End DownloadModels.

(** ** [scripts/list_files.py] *)

Definition repos : list string :=
  [ "irish-quant/Qwen-Qwen2.5-Coder-3B-Instruct-2bit";
    "irish-quant/Qwen-Qwen2.5-Coder-3B-Instruct-3bit";
    "irish-quant/Qwen-Qwen2.5-Coder-3B-Instruct-4bit" ].

(** What the listing service answers: the filenames of the source; or
    an exception that is an [Exception], with its text; or one that is not
    ([KeyboardInterrupt], [SystemExit]), with the name of its class. *)
Inductive listing_reply : Type :=
  | Listed (files : list string)
  | ListingError (e : string)
  | ListingAbort (class : string).

(** The listing service, [huggingface_hub.list_repo_files], is outside the
    repository. *)
Definition listing_service : Type := string -> listing_reply.

Section ListFiles.

Variable list_repo_files : listing_service.

Definition call_list_repo_files (repo : string) : M (list string) :=
  match list_repo_files repo with
  | Listed files => ret files
  | ListingError e => raise (Exception "Exception" e)
  | ListingAbort class => raise (BaseException class "")
  end.

(** [for file in files: if file.endswith('.gguf'): print(...)] *)
Fixpoint print_gguf (files : list string) : M unit :=
  match files with
  | [] => ret tt
  | file :: rest =>
      (if endswith file ".gguf" then print ("  ✓ " +:+ file) else ret tt) ;;;
      print_gguf rest
  end.

(** The body of the loop over the sources. *)
Definition list_repo (repo : string) : M unit :=
  print (nl +:+ "📁 Files in " +:+ repo +:+ ":") ;;;
  try_except
    (let* files := call_list_repo_files repo in
     print_gguf files)
    (fun e => print ("  ❌ Error: " +:+ e)).

(** [for repo in repos: ...], the whole script for [repos]. *)
Fixpoint list_files_on (repos : list string) : M unit :=
  match repos with
  | [] => ret tt
  | repo :: rest => list_repo repo ;;; list_files_on rest
  end.

Definition list_files : M unit := list_files_on repos.

End ListFiles.

(** ** Notions used in the statements *)

(** A mantissa of 53 bits. *)
Definition mant53 (m : positive) : Prop :=
  2 ^ 52 <= Z.pos m < 2 ^ 53.

(** The least positive [int] that [float] rejects: the midpoint between
    the largest finite binary64 number and [2^1024]. *)
Definition float_int_bound : Z := 2 ^ 1024 - 2 ^ 970.

(** The file a task is about: [os.path.join(local_dir, filename)]. *)
Definition target_path (t : model_info) : string :=
  os_path_join (local_dir t) (filename t).

(** The world with more lines printed. *)
Definition printed (w : world) (lines : list string) : world :=
  mk_world (w_fs w) (w_out w ++ lines) (w_fetches w).

(** The lines [download_model] prints before it looks at the
    filesystem, and the line of [create_directory]. *)
Definition announce (t : model_info) : list string :=
  [ nl +:+ "📥 Downloading " +:+ description t;
    "   Repository: " +:+ repo_id t;
    "   File: " +:+ filename t;
    "   Directory: " +:+ local_dir t;
    "✓ Created directory: " +:+ local_dir t ].

(** The line that opens the [i]-th round of the loop of [main]. *)
Definition round_line (count i : Z) (t : model_info) : string :=
  nl +:+ "[" +:+ str_int i +:+ "/" +:+ str_int count +:+ "] Processing "
  +:+ description t.

(** What [main] adds to [total_size] after a success: the size of the
    node at the target path, nothing when there is none. *)
Definition size_at (fs : filesystem) (path : string) : Z :=
  match stat fs path with
  | Some n => off_val (node_size n)
  | None => 0
  end.

(** The request [download_model] sends to the fetch service for a task. *)
Definition request_of (t : model_info) : fetch_call :=
  (repo_id t, filename t, local_dir t).

(** The fetch service failed: it raised an [Exception], or the file it
    reports is not there afterwards. *)
Definition fetch_failed (reply : fetch_reply) (fs_after : filesystem) : Prop :=
  match reply with
  | FetchError _ => True
  | Fetched path => stat fs_after path = None
  | FetchAbort _ => False
  end.


(** The lines [main] prints before the loop. *)
Definition banner (count : Z) : list string :=
  [ "Mobile LLM Battery Benchmark - Model Downloader";
    str_repeat "=" 50;
    "Total models: " +:+ str_int count;
    "Models: Qwen2.5-Coder-3B-Instruct (2bit, 3bit, 4bit)" ].

(** The lines of the summary, [text] being the formatted total size. *)
Definition summary_lines (count success_count : Z) (text : string)
  : list string :=
  [ nl +:+ str_repeat "=" 50;
    "📊 Download Summary";
    str_repeat "=" 50;
    "✓ Successfully downloaded: " +:+ str_int success_count +:+ "/"
      +:+ str_int count +:+ " models";
    "📦 Total size: " +:+ text ]
  ++ (if success_count =? count then
        [ nl +:+ "🎉 All models downloaded successfully!";
          nl +:+ "Next steps:";
          "1. Copy models to app/src/main/assets/models/";
          "2. Build the project: ./gradlew assembleDebug";
          "3. Install on device: adb install app/build/outputs/apk/debug/app-debug.apk" ]
      else
        [ nl +:+ "⚠️  " +:+ str_int (count - success_count)
            +:+ " model(s) failed to download";
          "Please check your internet connection and try again" ]).

(** A tree-shaped filesystem: the parent of every node is a directory. *)
Definition fs_tree (fs : filesystem) : Prop :=
  forall (p : list string) (c : string),
    is_Some (fs_nodes fs !! (p ++ [c])) -> exists s, fs_stat fs p = Some (Dir s).

(** [fs'] is [fs] with some new directories: the working directory is
    the same, what was there is there unchanged, what is new is a new
    directory, and a tree stays a tree. *)
Definition extends (fs fs' : filesystem) : Prop :=
  fs_cwd fs' = fs_cwd fs /\
  (forall loc n, fs_stat fs loc = Some n -> fs_stat fs' loc = Some n) /\
  (forall loc, fs_stat fs loc = None ->
     fs_stat fs' loc = None \/ fs_stat fs' loc = Some (Dir new_dir_size)) /\
  (fs_tree fs -> fs_tree fs').

(** Names of entries: not empty, not [.], not [..]. *)
Definition plain_names (names : list string) : Prop :=
  Forall (fun c => is_name c = true /\ c <> ".."%string) names.

(** A path whose names are all names of entries: none is [..]. *)
Definition plain_path (path : string) : Prop :=
  Forall (fun c => c <> ".."%string) (snd (pure_path path)).

(** For such a path, the location named by its first [i] names. *)
Definition prefix_loc (fs : filesystem) (path : string) (i : nat) : list string :=
  start fs (fst (pure_path path)) ++ take i (snd (pure_path path)).

(** The location a path leads to when every directory on the way is
    there. *)
Definition locate (fs : filesystem) (path : string) : list string :=
  foldl step (start fs (startswith path "/")) (split_slash "" path).

(** The number of divisions by [1024.0] that [format_file_size] performs
    on [n], and the unit it then prints. *)
Definition unit_index (n : Z) : Z := Z.min 4 (Z.log2 n / 10).

Definition unit_name (k : Z) : string :=
  nth (Z.to_nat k) ["B"; "KB"; "MB"; "GB"]%string "TB"%string.

(** ** Concrete runs *)

(** Nothing on disk but the working directory [/project], nothing
    printed, no call made. *)
Definition fs0 : filesystem := mk_fs ∅ ["project"%string].

Definition world0 : world := mk_world fs0 [] [].

(** A fetch service that stores the file at the target path,
    [size] bytes long, and reports that path. *)
Definition fetch_stores (size : off_t) : fetch_service :=
  fun _ filename dir fs =>
    let path := os_path_join dir filename in
    (Fetched path, fs_put (locate fs path) (File size) fs).

(** A fetch service that keeps the file in a cache directory of its own
    and reports the path there. *)
Definition fetch_into_cache : fetch_service :=
  fun _ filename _ fs =>
    let path := os_path_join "cache" filename in
    (Fetched path,
     fs_put (locate fs path) (File (bytes 100))
       (fs_put (locate fs "cache") (Dir new_dir_size) fs)).

(** A fetch service that always raises. *)
Definition fetch_raises : fetch_service :=
  fun _ _ _ fs => (FetchError "connection refused", fs).

(** A fetch service that is interrupted by the user. *)
Definition fetch_interrupted : fetch_service :=
  fun _ _ _ fs => (FetchAbort "KeyboardInterrupt", fs).

(** A fetch service that reports a path and stores nothing. *)
Definition fetch_stores_nothing : fetch_service :=
  fun _ filename dir fs => (Fetched (os_path_join dir filename), fs).

(** 100 bytes for the first entry of [MODELS], 200 bytes for the second,
    an error for the third. *)
Definition fetch_two_of_three : fetch_service :=
  fun repo filename dir fs =>
    if String.eqb dir "models/2bit" then fetch_stores (bytes 100) repo filename dir fs
    else if String.eqb dir "models/3bit" then fetch_stores (bytes 200) repo filename dir fs
    else fetch_raises repo filename dir fs.

Definition model_2bit : model_info :=
  mk_model_info "irish-quant/Qwen-Qwen2.5-Coder-3B-Instruct-2bit"
                "Qwen2.5-Coder-3B-Instruct-Q2_K.gguf"
                "models/2bit"
                "2-bit quantized (0.5B, smallest, fastest)".

Definition model_3bit : model_info :=
  mk_model_info "irish-quant/Qwen-Qwen2.5-Coder-3B-Instruct-3bit"
                "Qwen2.5-Coder-3B-Instruct-Q3_K_M.gguf"
                "models/3bit"
                "3-bit quantized (0.6B, balanced)".

Definition model_4bit : model_info :=
  mk_model_info "irish-quant/Qwen-Qwen2.5-Coder-3B-Instruct-4bit"
                "Qwen2.5-Coder-3B-Instruct-Q4_K_M.gguf"
                "models/4bit"
                "4-bit quantized (highest quality)".

(** The directories of the first model, and nothing else. *)
Definition fs_2bit_dirs : filesystem :=
  mk_fs
    (<[ ["project"; "models"; "2bit"]%string := Dir new_dir_size ]>
     (<[ ["project"; "models"]%string := Dir new_dir_size ]> ∅))
    ["project"%string].

(** The first model is on disk already, 4242 bytes long. *)
Definition fs_have_2bit : filesystem :=
  mk_fs
    (<[ ["project"; "models"; "2bit"; "Qwen2.5-Coder-3B-Instruct-Q2_K.gguf"]%string
          := File (bytes 4242) ]>
     (<[ ["project"; "models"; "2bit"]%string := Dir new_dir_size ]>
      (<[ ["project"; "models"]%string := Dir new_dir_size ]> ∅)))
    ["project"%string].

Definition world_have_2bit : world := mk_world fs_have_2bit [] [].

(** An entry whose filename is an absolute path, and a world where that
    file exists while a regular file [models] sits where the entry's
    directory would go. *)
Definition model_absolute : model_info :=
  mk_model_info "some/repo" "/srv/model.gguf" "models" "absolute filename".

Definition world_blocked : world :=
  mk_world
    (mk_fs
       (<[ ["srv"; "model.gguf"]%string := File (bytes 42) ]>
        (<[ ["srv"]%string := Dir new_dir_size ]>
         (<[ ["project"; "models"]%string := File (bytes 7) ]> ∅)))
       ["project"%string])
    [] [].

(** A world where a regular file [models/3bit] sits where the directory
    of the second entry of [MODELS] would go. *)
Definition world_3bit_is_file : world :=
  mk_world
    (mk_fs
       (<[ ["project"; "models"; "3bit"]%string := File (bytes 7) ]>
        (<[ ["project"; "models"]%string := Dir new_dir_size ]> ∅))
       ["project"%string])
    [] [].


(** The lines [list_files.py] prints for one source: the header, then
    the matching filenames or the diagnostic; after the header nothing
    when the listing is aborted. *)
Definition repo_lines (svc : listing_service) (repo : string) : list string :=
  (nl +:+ "📁 Files in " +:+ repo +:+ ":")
  :: match svc repo with
     | Listed files =>
         map (fun file => "  ✓ " +:+ file)
           (List.filter (fun file => endswith file ".gguf") files)
     | ListingError e => ["  ❌ Error: " +:+ e]
     | ListingAbort _ => []
     end.

(** The listing service does not abort for a source: what it raises, if
    anything, is an [Exception]. *)
Definition listing_answers (svc : listing_service) (repo : string) : Prop :=
  forall class, svc repo <> ListingAbort class.


(* ===================================================================== *)
(** * Part II: properties *)
(* ===================================================================== *)

(** Decide a closed equation by evaluation. *)
Ltac vm_refl :=
  match goal with |- ?a = ?b => vm_cast_no_check (@eq_refl _ b) end.

(** ** binary64 arithmetic on the values that occur *)

Lemma digits2_pos_size (p : positive) : digits2_pos p = Pos.size p.
Proof. induction p as [p IH | p IH |]; simpl; congruence. Qed.

Lemma digits2_log2 (p : positive) :
  Z.pos (digits2_pos p) = Z.log2 (Z.pos p) + 1.
Proof.
  rewrite digits2_pos_size.
  destruct p as [p | p |]; simpl; try rewrite Pos2Z.inj_succ; lia.
Qed.

Lemma fexp_normal (x : Z) : -1021 <= x -> fexp prec emax x = x - 53.
Proof. unfold fexp, SpecFloat.emin, prec, emax. lia. Qed.

Lemma mant53_digits (m : positive) : mant53 m -> Z.pos (digits2_pos m) = 53.
Proof.
  intros [Hlo Hhi]. rewrite digits2_log2.
  rewrite (Z.log2_unique (Z.pos m) 52); lia.
Qed.

Lemma shr_1_m (r : shr_record) :
  0 <= shr_m r -> shr_m (shr_1 r) = shr_m r / 2.
Proof.
  destruct r as [m r s]. simpl. intros Hm.
  destruct m as [| [p | p |] | p]; cbn [shr_m]; try lia; try reflexivity.
  - apply (Z.div_unique _ _ _ 1); lia.
  - apply (Z.div_unique _ _ _ 0); lia.
Qed.

Lemma iter_shr_1_m (p : positive) (r : shr_record) :
  0 <= shr_m r -> shr_m (SpecFloat.iter_pos shr_1 p r) = shr_m r / 2 ^ Z.pos p.
Proof.
  revert r. induction p as [p IH | p IH |]; intros r Hr; simpl SpecFloat.iter_pos.
  - assert (H1 : 0 <= shr_m (shr_1 r)) by (rewrite shr_1_m by done; apply Z.div_pos; lia).
    assert (H2 : 0 <= shr_m (SpecFloat.iter_pos shr_1 p (shr_1 r)))
      by (rewrite IH by done; apply Z.div_pos; lia).
    rewrite IH, IH, shr_1_m by done.
    rewrite !Z.div_div by lia. f_equal.
    rewrite Pos2Z.inj_xI, <- !Z.pow_add_r, <- Z.pow_succ_r by lia. f_equal. lia.
  - assert (H2 : 0 <= shr_m (SpecFloat.iter_pos shr_1 p r))
      by (rewrite IH by done; apply Z.div_pos; lia).
    rewrite IH, IH by done.
    rewrite !Z.div_div by lia. f_equal.
    rewrite Pos2Z.inj_xO, <- !Z.pow_add_r by lia. f_equal. lia.
  - rewrite shr_1_m by done. reflexivity.
Qed.

Lemma div_eucl_div_mod (a b : Z) : Z.div_eucl a b = (a / b, a mod b).
Proof. unfold Z.div, Z.modulo. destruct (Z.div_eucl a b); reflexivity. Qed.

Lemma shr_fexp_53 (m : positive) (e : Z) (l : location) :
  mant53 m -> -1074 <= e ->
  shr_fexp prec emax (Z.pos m) e l = (shr_record_of_loc (Z.pos m) l, e).
Proof.
  intros Hm He. unfold shr_fexp. cbn [Zdigits2].
  rewrite (mant53_digits m Hm).
  replace (fexp prec emax (53 + e) - e) with 0
    by (unfold fexp, SpecFloat.emin, prec, emax; lia).
  reflexivity.
Qed.

Lemma shr_fexp_54 (m : positive) (e : Z) :
  mant53 m -> -1075 <= e ->
  shr_fexp prec emax (Z.pos m~0) e loc_Exact
  = (Build_shr_record (Z.pos m) false false, e + 1).
Proof.
  intros Hm He. unfold shr_fexp. cbn [Zdigits2 digits2_pos].
  rewrite Pos2Z.inj_succ, (mant53_digits m Hm).
  replace (fexp prec emax (Z.succ 53 + e) - e) with 1
    by (unfold fexp, SpecFloat.emin, prec, emax; lia).
  reflexivity.
Qed.

Lemma binary_round_aux_53 (m : positive) (e : Z) :
  mant53 m -> -1074 <= e <= 971 ->
  binary_round_aux prec emax false (Z.pos m) e loc_Exact = S754_finite false m e.
Proof.
  intros Hm He. unfold binary_round_aux.
  rewrite shr_fexp_53 by (done || lia).
  cbn [shr_record_of_loc shr_m loc_of_shr_record round_nearest_even].
  rewrite shr_fexp_53 by (done || lia).
  cbn [shr_record_of_loc shr_m].
  replace (e <=? emax - prec) with true by (unfold emax, prec; lia).
  reflexivity.
Qed.

Lemma binary_round_aux_54 (m : positive) (e : Z) :
  mant53 m -> -1075 <= e <= 970 ->
  binary_round_aux prec emax false (Z.pos m~0) e loc_Exact
  = S754_finite false m (e + 1).
Proof.
  intros Hm He. unfold binary_round_aux.
  rewrite shr_fexp_54 by (done || lia).
  cbn [shr_m loc_of_shr_record round_nearest_even].
  rewrite shr_fexp_53 by (done || lia).
  cbn [shr_record_of_loc shr_m].
  replace (e + 1 <=? emax - prec) with true by (unfold emax, prec; lia).
  reflexivity.
Qed.

(** Dividing a normal number by [1024.0] is exact: the mantissa stays and
    the exponent drops by ten. *)
Lemma SFdiv_1024 (m : positive) (e : Z) :
  mant53 m -> -1063 <= e <= 981 ->
  SFdiv prec emax (S754_finite false m e) f1024 = S754_finite false m (e - 10).
Proof.
  intros Hm He. unfold SFdiv, f1024, SFdiv_core_binary.
  cbn [Zdigits2 xorb]. rewrite (mant53_digits m Hm).
  change (Z.pos (digits2_pos 4503599627370496)) with 53.
  rewrite fexp_normal by lia.
  replace (Z.min (53 + e - (53 + -42) - 53) (e - -42)) with (e - 11) by lia.
  replace (e - -42 - (e - 11)) with 53 by lia.
  cbv iota. rewrite div_eucl_div_mod.
  assert (Hs : Z.shiftl (Z.pos m) 53 = Z.pos m~0 * 4503599627370496).
  { rewrite Z.shiftl_mul_pow2 by lia.
    change (2 ^ 53) with (2 * 4503599627370496). lia. }
  rewrite Hs, Z.div_mul, Z.mod_mul by lia.
  change (new_location 4503599627370496 0) with loc_Exact.
  rewrite binary_round_aux_54 by (assumption || lia).
  f_equal. lia.
Qed.

Lemma SFltb_1024 (m : positive) (e : Z) :
  mant53 m -> SFltb (S754_finite false m e) f1024 = (e <? -42).
Proof.
  intros [Hlo Hhi]. unfold SFltb, SFcompare, f1024.
  destruct (Z.compare_spec e (-42)) as [He | He | He].
  - subst e. rewrite Pos.compare_cont_spec. cbn [Pos.switch_Eq].
    destruct (m ?= 4503599627370496)%positive eqn:E.
    + reflexivity.
    + exfalso. pose proof (proj1 (Pos.compare_lt_iff _ _) E) as E'. clear E.
      apply Pos2Z.pos_lt_pos in E'.
      change (2 ^ 52) with (Z.pos 4503599627370496) in Hlo. lia.
    + reflexivity.
  - symmetry. apply Z.ltb_lt. lia.
  - symmetry. apply Z.ltb_ge.  lia.
Qed.

Lemma iter_xO (p k : positive) :
  Z.pos (Pos.iter xO p k) = Z.pos p * 2 ^ Z.pos k.
Proof.
  induction k as [| k IH] using Pos.peano_ind.
  - cbn [Pos.iter]. lia.
  - rewrite Pos.iter_succ, Pos2Z.inj_xO, IH, Pos2Z.inj_succ, Z.pow_succ_r; lia.
Qed.

Lemma round_nearest_even_cases (m : Z) (l : location) :
  round_nearest_even m l = m \/ round_nearest_even m l = m + 1.
Proof.
  destruct l as [| []]; cbn [round_nearest_even]; auto.
  destruct (Z.even m); auto.
Qed.

(** [float(n)] for [0 < n < 2^53] is exact. *)
Lemma float_of_int_small (p : positive) :
  Z.pos p < 2 ^ 53 ->
  float_of_int (Z.pos p)
  = Some (S754_finite false
            (Z.to_pos (Z.pos p * 2 ^ (52 - Z.log2 (Z.pos p))))
            (Z.log2 (Z.pos p) - 52)).
Proof.
  intros Hp.
  pose proof (Z.log2_spec (Z.pos p) ltac:(lia)) as [Hlo Hhi].
  pose proof (Z.log2_nonneg (Z.pos p)) as Hd0.
  assert (Hd : Z.log2 (Z.pos p) <= 52).
  { destruct (Z.le_gt_cases (Z.log2 (Z.pos p)) 52) as [|Hgt]; [done|].
    exfalso. assert (2 ^ 53 <= 2 ^ Z.log2 (Z.pos p))
      by (apply Z.pow_le_mono_r; lia). lia. }
  set (d := Z.log2 (Z.pos p)) in *.
  assert (Hpow : 2 ^ 52 = 2 ^ d * 2 ^ (52 - d))
    by (rewrite <- Z.pow_add_r by lia; f_equal; lia).
  assert (Hpow' : 2 ^ 53 = 2 ^ Z.succ d * 2 ^ (52 - d))
    by (rewrite <- Z.pow_add_r by lia; f_equal; lia).
  assert (Hk : 0 < 2 ^ (52 - d)) by (apply Z.pow_pos_nonneg; lia).
  assert (Hm : mant53 (Z.to_pos (Z.pos p * 2 ^ (52 - d)))).
  { unfold mant53. rewrite Z2Pos.id by lia. rewrite Hpow, Hpow'. split.
    - apply Z.mul_le_mono_nonneg_r; lia.
    - apply Z.mul_lt_mono_pos_r; lia. }
  unfold float_of_int, binary_normalize, binary_round.
  rewrite digits2_log2. fold d.
  rewrite fexp_normal by lia.
  assert (Hsh : shl_align p 0 (d + 1 + 0 - 53)
                = (Z.to_pos (Z.pos p * 2 ^ (52 - d)), d - 52)).
  { unfold shl_align. destruct (d + 1 + 0 - 53 - 0) as [| k | k] eqn:Hk'; try lia.
    - f_equal; [| lia]. replace (52 - d) with 0 by lia.
      rewrite Z.pow_0_r, Z.mul_1_r. reflexivity.
    - f_equal; [| lia]. apply Pos2Z.inj. rewrite iter_xO, Z2Pos.id by lia.
      do 2 f_equal. lia. }
  rewrite Hsh. rewrite binary_round_aux_53 by (assumption || lia).
  reflexivity.
Qed.

Lemma shr_1_r (r : shr_record) :
  0 <= shr_m r -> shr_r (shr_1 r) = Z.odd (shr_m r).
Proof.
  destruct r as [m r s]. cbn [shr_m]. intros Hm.
  destruct m as [| [p | p |] | p]; try lia; reflexivity.
Qed.

Lemma iter_shr_1_nonneg (p : positive) (r : shr_record) :
  0 <= shr_m r -> 0 <= shr_m (SpecFloat.iter_pos shr_1 p r).
Proof.
  intros Hr. rewrite iter_shr_1_m by done. apply Z.div_pos; lia.
Qed.

(** The round bit after shifting right by [p] is bit [p - 1]. *)
Lemma iter_shr_1_r (p : positive) (r : shr_record) :
  0 <= shr_m r ->
  shr_r (SpecFloat.iter_pos shr_1 p r) = Z.testbit (shr_m r) (Z.pos p - 1).
Proof.
  revert r. induction p as [p IH | p IH |]; intros r Hr; simpl SpecFloat.iter_pos.
  - assert (H1 : 0 <= shr_m (shr_1 r)) by (rewrite shr_1_m by done; apply Z.div_pos; lia).
    rewrite IH by (apply iter_shr_1_nonneg; done).
    rewrite iter_shr_1_m, shr_1_m by done.
    rewrite Z.div_div, <- Z.pow_succ_r by lia.
    rewrite Z.div_pow2_bits by lia. f_equal. lia.
  - rewrite IH by (apply iter_shr_1_nonneg; done).
    rewrite iter_shr_1_m by done.
    rewrite Z.div_pow2_bits by lia. f_equal. lia.
  - rewrite shr_1_r by done. symmetry. apply Z.bit0_odd.
Qed.

Lemma round_up_bit (m : Z) (r s : bool) :
  round_nearest_even m (loc_of_shr_record (Build_shr_record m r s)) = m + 1 ->
  r = true.
Proof.
  destruct r; [reflexivity |]. destruct s; cbn; lia.
Qed.

(** A set bit [k - 1] puts the number in the upper half of its block of
    [2^k]. *)
Lemma testbit_upper_half (a k : Z) :
  0 <= a -> 0 < k -> Z.testbit a (k - 1) = true ->
  (a / 2 ^ k) * 2 ^ k + 2 ^ (k - 1) <= a.
Proof.
  intros Ha Hk Hb.
  apply Z.testbit_true in Hb; [| lia].
  assert (Hp : 0 < 2 ^ (k - 1)) by (apply Z.pow_pos_nonneg; lia).
  assert (Hk2 : 2 ^ k = 2 ^ (k - 1) * 2).
  { replace k with (Z.succ (k - 1)) at 1 by lia. rewrite Z.pow_succ_r; lia. }
  set (q := a / 2 ^ (k - 1)) in *.
  assert (Hq : a / 2 ^ k = q / 2).
  { rewrite Hk2. unfold q. rewrite Z.div_div; lia. }
  pose proof (Z.div_mod q 2 ltac:(lia)) as Hdm.
  pose proof (Z.mul_div_le a (2 ^ (k - 1)) Hp) as Hle. fold q in Hle.
  rewrite Hq, Hk2. nia.
Qed.

(** [float(n)] for [2^53 <= n < 2^1024 - 2^970] is a normal number next
    to [n]. *)
Lemma float_of_int_large (p : positive) :
  2 ^ 53 <= Z.pos p < float_int_bound ->
  exists m e,
    float_of_int (Z.pos p) = Some (S754_finite false m e) /\
    mant53 m /\
    Z.log2 (Z.pos p) - 52 <= e <= Z.log2 (Z.pos p) - 51.
Proof.
  unfold float_int_bound. intros [Hp1 Hp2].
  pose proof (Z.log2_spec (Z.pos p) ltac:(lia)) as [Hlo Hhi].
  assert (Hd1 : 53 <= Z.log2 (Z.pos p)) by (apply Z.log2_le_pow2; lia).
  assert (Hd2 : Z.log2 (Z.pos p) < 1024) by (apply Z.log2_lt_pow2; lia).
  set (d := Z.log2 (Z.pos p)) in *.
  unfold float_of_int, binary_normalize, binary_round.
  rewrite digits2_log2. fold d.
  rewrite fexp_normal by lia.
  assert (Hsh : shl_align p 0 (d + 1 + 0 - 53) = (p, 0)).
  { unfold shl_align. destruct (d + 1 + 0 - 53 - 0) eqn:Hk'; try lia; reflexivity. }
  rewrite Hsh. unfold binary_round_aux.
  destruct (d - 52) as [| k | k] eqn:Hk; try lia.
  assert (Hfst : shr_fexp prec emax (Z.pos p) 0 loc_Exact
                 = (SpecFloat.iter_pos shr_1 k (Build_shr_record (Z.pos p) false false),
                    d - 52)).
  { unfold shr_fexp. cbn [Zdigits2]. rewrite digits2_log2. fold d.
    rewrite fexp_normal by lia.
    replace (d + 1 + 0 - 53 - 0) with (Z.pos k) by lia.
    cbn [shr shr_record_of_loc]. f_equal. lia. }
  rewrite Hfst.
  pose proof (iter_shr_1_m k (Build_shr_record (Z.pos p) false false)
                ltac:(cbn [shr_m]; lia)) as Hm1.
  pose proof (iter_shr_1_r k (Build_shr_record (Z.pos p) false false)
                ltac:(cbn [shr_m]; lia)) as Hr1.
  cbn [shr_m] in Hm1, Hr1.
  destruct (SpecFloat.iter_pos shr_1 k (Build_shr_record (Z.pos p) false false))
    as [m1 r1 s1].
  cbn [shr_m shr_r] in Hm1, Hr1 |- *.
  assert (Hk0 : 0 < 2 ^ Z.pos k) by (apply Z.pow_pos_nonneg; lia).
  assert (Hm1lo : 2 ^ 52 <= m1).
  { subst m1. apply Z.div_le_lower_bound; [lia |].
    rewrite <- Z.pow_add_r by lia. replace (Z.pos k + 52) with d by lia. lia. }
  assert (Hm1hi : m1 < 2 ^ 53).
  { subst m1. apply Z.div_lt_upper_bound; [lia |].
    rewrite <- Z.pow_add_r by lia. replace (Z.pos k + 53) with (Z.succ d) by lia. lia. }
  destruct (round_nearest_even_cases m1
              (loc_of_shr_record (Build_shr_record m1 r1 s1))) as [Hrd | Hrd];
    rewrite Hrd.
  - destruct m1 as [| m | m]; try lia.
    rewrite shr_fexp_53 by (done || lia). cbn [shr_record_of_loc shr_m].
    replace (d - 52 <=? emax - prec) with true by (unfold emax, prec; lia).
    exists m, (d - 52). repeat split; lia.
  - destruct (Z.eq_dec (m1 + 1) (2 ^ 53)) as [Heq | Hne].
    + (* the mantissa overflows into the next binade *)
      assert (Hd3 : d < 1023).
      { destruct (Z.lt_ge_cases d 1023) as [| Hge]; [done |]. exfalso.
        assert (Hd : d = 1023) by lia.
        assert (Hkk : Z.pos k = 971) by lia.
        apply round_up_bit in Hrd. rewrite Hrd in Hr1. symmetry in Hr1.
        apply testbit_upper_half in Hr1; [| lia | lia].
        rewrite <- Hm1, Hkk in Hr1.
        assert (Hm : m1 = 2 ^ 53 - 1) by lia. rewrite Hm in Hr1.
        change (971 - 1) with 970 in Hr1.
        assert (Hc : (2 ^ 53 - 1) * 2 ^ 971 + 2 ^ 970 = 2 ^ 1024 - 2 ^ 970)
          by reflexivity.
        lia. }
      rewrite Heq. change (2 ^ 53) with (Z.pos 4503599627370496~0).
      rewrite shr_fexp_54 by (unfold mant53; lia). cbn [shr_m].
      replace (d - 52 + 1 <=? emax - prec) with true by (unfold emax, prec; lia).
      exists 4503599627370496%positive, (d - 52 + 1).
      repeat split; unfold mant53; lia.
    + destruct (m1 + 1) as [| m | m] eqn:Hm; try lia.
      rewrite shr_fexp_53 by (unfold mant53; lia). cbn [shr_record_of_loc shr_m].
      replace (d - 52 <=? emax - prec) with true by (unfold emax, prec; lia).
      exists m, (d - 52). repeat split; unfold mant53; lia.
Qed.

(** [float(n)] for [0 < n < 2^1024 - 2^970]: a normal number, exact below
    [2^53]. *)
Lemma float_of_int_pos (n : Z) :
  0 < n < float_int_bound ->
  exists m e,
    float_of_int n = Some (S754_finite false m e) /\
    mant53 m /\
    Z.log2 n - 52 <= e <= Z.log2 n - 51 /\
    (n < 2 ^ 53 -> e = Z.log2 n - 52 /\ Z.pos m = n * 2 ^ (- e)).
Proof.
  intros [Hn1 Hn2]. destruct n as [| p | p]; try lia.
  destruct (Z.lt_ge_cases (Z.pos p) (2 ^ 53)) as [Hs | Hl].
  - pose proof (float_of_int_small p Hs) as Hf.
    pose proof (Z.log2_spec (Z.pos p) ltac:(lia)) as [Hlo Hhi].
    assert (Hd : Z.log2 (Z.pos p) <= 52).
    { destruct (Z.le_gt_cases (Z.log2 (Z.pos p)) 52) as [|Hgt]; [done|].
      exfalso. assert (2 ^ 53 <= 2 ^ Z.log2 (Z.pos p))
        by (apply Z.pow_le_mono_r; lia). lia. }
    pose proof (Z.log2_nonneg (Z.pos p)) as Hd0.
    set (d := Z.log2 (Z.pos p)) in *.
    assert (Hk : 0 < 2 ^ (52 - d)) by (apply Z.pow_pos_nonneg; lia).
    assert (Hpow : 2 ^ 52 = 2 ^ d * 2 ^ (52 - d))
      by (rewrite <- Z.pow_add_r by lia; f_equal; lia).
    assert (Hpow' : 2 ^ 53 = 2 ^ Z.succ d * 2 ^ (52 - d))
      by (rewrite <- Z.pow_add_r by lia; f_equal; lia).
    eexists _, _. split; [exact Hf |]. split; [| split; [lia |]].
    + unfold mant53. rewrite Z2Pos.id by lia. rewrite Hpow, Hpow'. split.
      * apply Z.mul_le_mono_nonneg_r; lia.
      * apply Z.mul_lt_mono_pos_r; lia.
    + intros _. split; [reflexivity |]. rewrite Z2Pos.id by lia.
      do 2 f_equal. lia.
  - destruct (float_of_int_large p ltac:(lia)) as (m & e & Hf & Hm & He).
    exists m, e. split; [exact Hf |]. split; [exact Hm |].
    split; [lia |]. intros Hc. lia.
Qed.

(** ** [format_file_size] on the sizes that convert to [float] *)

Lemma div_half_even_scale (a b c : Z) :
  0 < b -> 0 < c -> div_half_even (a * c) (b * c) = div_half_even a b.
Proof.
  intros Hb Hc. unfold div_half_even.
  rewrite Z.div_mul_cancel_r, Z.mul_mod_distr_r by lia.
  replace (2 * (a `mod` b * c)) with (2 * (a `mod` b) * c) by lia.
  rewrite <- (Zmult_compare_compat_r (2 * (a `mod` b)) b c) by lia.
  reflexivity.
Qed.

Lemma unit_index_cases (n : Z) :
  0 < n ->
  (n < 2 ^ 10 /\ unit_index n = 0) \/
  (2 ^ 10 <= n < 2 ^ 20 /\ unit_index n = 1) \/
  (2 ^ 20 <= n < 2 ^ 30 /\ unit_index n = 2) \/
  (2 ^ 30 <= n < 2 ^ 40 /\ unit_index n = 3) \/
  (2 ^ 40 <= n /\ unit_index n = 4).
Proof.
  intros Hn. unfold unit_index.
  pose proof (Z.log2_nonneg n) as H0.
  pose proof (Z.log2_lt_pow2 n 10 Hn) as H10.
  pose proof (Z.log2_lt_pow2 n 20 Hn) as H20.
  pose proof (Z.log2_lt_pow2 n 30 Hn) as H30.
  pose proof (Z.log2_lt_pow2 n 40 Hn) as H40.
  set (L := Z.log2 n) in *.
  pose proof (Z.div_mod L 10 ltac:(lia)) as Hdm.
  pose proof (Z.mod_pos_bound L 10 ltac:(lia)) as Hmb.
  destruct (Z.lt_ge_cases L 10); [left; split; [apply H10 |]; lia |].
  destruct (Z.lt_ge_cases L 20); [right; left; split; [split; [| apply H20] |]; lia |].
  destruct (Z.lt_ge_cases L 30);
    [right; right; left; split; [split; [| apply H30] |]; lia |].
  destruct (Z.lt_ge_cases L 40);
    [right; right; right; left; split; [split; [| apply H40] |]; lia |].
  right; right; right; right. split; lia.
Qed.

(** One more round of the loop on a [float]. *)
Ltac loop_step :=
  rewrite SFdiv_1024 by (assumption || lia);
  cbn [format_loop lt_1024 to_float];
  try rewrite SFltb_1024 by assumption.

(** The text [format_file_size] returns, in terms of the [float] nearest
    to the size: the exponent drops by ten per unit step. *)
Lemma format_file_size_float (n : Z) (m : positive) (e : Z) :
  0 < n < float_int_bound ->
  float_of_int n = Some (S754_finite false m e) ->
  format_file_size n
  = Some (format_1f (S754_finite false m (e - 10 * unit_index n))
          +:+ " " +:+ unit_name (unit_index n)).
Proof.
  intros Hn Hf.
  destruct (float_of_int_pos n Hn) as (m' & e' & Hf' & Hm & He & Hex).
  rewrite Hf in Hf'. injection Hf' as <- <-.
  pose proof (Z.log2_spec n ltac:(lia)) as [Hlo Hhi].
  assert (Hlog : 2 ^ 53 <= n -> 53 <= Z.log2 n)
    by (intros; apply Z.log2_le_pow2; lia).
  assert (Hel : n < 2 ^ 53 -> e = Z.log2 n - 52) by (intros H; apply Hex, H).
  assert (H10 : n < 2 ^ 10 <-> Z.log2 n < 10) by (apply Z.log2_lt_pow2; lia).
  assert (H20 : n < 2 ^ 20 <-> Z.log2 n < 20) by (apply Z.log2_lt_pow2; lia).
  assert (H30 : n < 2 ^ 30 <-> Z.log2 n < 30) by (apply Z.log2_lt_pow2; lia).
  assert (H40 : n < 2 ^ 40 <-> Z.log2 n < 40) by (apply Z.log2_lt_pow2; lia).
  assert (Hub : Z.log2 n < 1024)
    by (apply Z.log2_lt_pow2; unfold float_int_bound in Hn; lia).
  assert (Hsmall : n < 2 ^ 40 -> n < 2 ^ 53) by lia.
  unfold format_file_size.
  replace (n =? 0) with false by lia.
  cbn [format_loop lt_1024].
  change 1024 with (2 ^ 10) at 1.
  destruct (unit_index_cases n ltac:(lia))
    as [[Hr ->] | [[Hr ->] | [[Hr ->] | [[Hr ->] | [Hr ->]]]]].
  - replace (n <? 2 ^ 10) with true by lia.
    unfold fmt_unit, to_float. rewrite Hf.
    replace (e - 10 * 0) with e by lia. reflexivity.
  - replace (n <? 2 ^ 10) with false by lia.
    unfold div_1024, fmt_unit, to_float. rewrite Hf. cbn [to_float].
    loop_step.
    replace (e - 10 <? -42) with true by lia.
    replace (e - 10 * 1) with (e - 10) by lia. reflexivity.
  - replace (n <? 2 ^ 10) with false by lia.
    unfold div_1024, fmt_unit, to_float. rewrite Hf. cbn [to_float].
    loop_step.
    replace (e - 10 <? -42) with false by lia.
    loop_step.
    replace (e - 10 - 10 <? -42) with true by lia.
    replace (e - 10 * 2) with (e - 10 - 10) by lia. reflexivity.
  - replace (n <? 2 ^ 10) with false by lia.
    unfold div_1024, fmt_unit, to_float. rewrite Hf. cbn [to_float].
    loop_step.
    replace (e - 10 <? -42) with false by lia.
    loop_step.
    replace (e - 10 - 10 <? -42) with false by lia.
    loop_step.
    replace (e - 10 - 10 - 10 <? -42) with true by lia.
    replace (e - 10 * 3) with (e - 10 - 10 - 10) by lia. reflexivity.
  - replace (n <? 2 ^ 10) with false by lia.
    assert (He40 : -12 <= e).
    { destruct (Z.lt_ge_cases n (2 ^ 53)) as [Hc | Hc]; [rewrite (Hel Hc) | ]; lia. }
    unfold div_1024, fmt_unit, to_float. rewrite Hf. cbn [to_float].
    loop_step.
    replace (e - 10 <? -42) with false by lia.
    loop_step.
    replace (e - 10 - 10 <? -42) with false by lia.
    loop_step.
    replace (e - 10 - 10 - 10 <? -42) with false by lia.
    loop_step.
    replace (e - 10 * 4) with (e - 10 - 10 - 10 - 10) by lia. reflexivity.
Qed.

Lemma format_file_size_some (n : Z) :
  0 <= n < float_int_bound -> is_Some (format_file_size n).
Proof.
  intros [Hn0 Hn1]. destruct (Z.eq_dec n 0) as [-> | Hne]; [by eexists |].
  destruct (float_of_int_pos n ltac:(lia)) as (m & e & Hf & _).
  rewrite (format_file_size_float n m e) by (exact Hf || lia). by eexists.
Qed.

(** Below [2^53] the conversion to [float] is exact, and the text is the
    size over [1024^k] rounded to the nearest tenth, ties to even. *)
Lemma format_file_size_exact (n : Z) :
  0 < n < 2 ^ 53 ->
  format_file_size n
  = Some (one_decimal (div_half_even (10 * n) (1024 ^ unit_index n))
          +:+ " " +:+ unit_name (unit_index n)).
Proof.
  intros Hn.
  assert (Hb : 0 < n < float_int_bound) by (unfold float_int_bound; lia).
  destruct (float_of_int_pos n Hb) as (m & e & Hf & Hm & He & Hex).
  destruct (Hex ltac:(lia)) as [He' Hmn].
  rewrite (format_file_size_float n m e Hb Hf).
  assert (Hl : Z.log2 n < 53) by (apply Z.log2_lt_pow2; lia).
  pose proof (Z.log2_nonneg n) as Hl0.
  assert (Hk : 0 <= unit_index n <= 4 /\ 10 * unit_index n <= Z.log2 n).
  { unfold unit_index.
    pose proof (Z.div_mod (Z.log2 n) 10 ltac:(lia)).
    pose proof (Z.mod_pos_bound (Z.log2 n) 10 ltac:(lia)). lia. }
  assert (Hneg : e - 10 * unit_index n < 0).
  { destruct (unit_index_cases n ltac:(lia))
      as [[Hr Hu] | [[Hr Hu] | [[Hr Hu] | [[Hr Hu] | [Hr Hu]]]]]; try lia.
    assert (Z.log2 n < 10) by (apply Z.log2_lt_pow2; lia). lia. }
  set (k := unit_index n) in *.
  unfold format_1f, tenths.
  replace (0 <=? e - 10 * k) with false by lia.
  rewrite Hmn.
  replace (2 ^ (- (e - 10 * k))) with (1024 ^ k * 2 ^ (- e)).
  2:{ change 1024 with (2 ^ 10). rewrite <- Z.pow_mul_r, <- Z.pow_add_r by lia.
      f_equal. lia. }
  rewrite Z.mul_assoc, div_half_even_scale.
  - reflexivity.
  - apply Z.pow_pos_nonneg; lia.
  - apply Z.pow_pos_nonneg; lia.
Qed.

(** ** The filesystem *)

Lemma fs_stat_put_same (fs : filesystem) (loc : list string) (n : node) :
  fs_stat fs loc = None -> fs_stat (fs_put loc n fs) loc = Some n.
Proof.
  unfold fs_stat, always_there, fs_put; cbn.
  destruct (bool_decide _); [discriminate |].
  intros _. apply lookup_insert_eq.
Qed.

Lemma fs_stat_put_ne (fs : filesystem) (loc q : list string) (n : node) :
  q <> loc -> fs_stat (fs_put loc n fs) q = fs_stat fs q.
Proof.
  unfold fs_stat, always_there, fs_put; cbn. intros Hne.
  destruct (bool_decide _); [reflexivity |].
  by rewrite lookup_insert_ne.
Qed.

Lemma fs_stat_put_keeps (fs : filesystem) (loc q : list string) (x n : node) :
  fs_stat fs loc = None -> fs_stat fs q = Some n ->
  fs_stat (fs_put loc x fs) q = Some n.
Proof.
  intros Hloc Hq. rewrite fs_stat_put_ne; [exact Hq |]. congruence.
Qed.

Lemma fs_stat_start (fs : filesystem) (absolute : bool) :
  fs_stat fs (start fs absolute) = Some (Dir new_dir_size).
Proof.
  unfold fs_stat, always_there, start.
  rewrite bool_decide_eq_true_2; [reflexivity |].
  destruct absolute; [apply prefix_nil | reflexivity].
Qed.


(** *** Filesystems that grow by new directories *)

Lemma extends_refl (fs : filesystem) : extends fs fs.
Proof. by repeat split; auto. Qed.

Lemma extends_trans (fs1 fs2 fs3 : filesystem) :
  extends fs1 fs2 -> extends fs2 fs3 -> extends fs1 fs3.
Proof.
  intros (Hc1 & Hk1 & Hn1 & Ht1) (Hc2 & Hk2 & Hn2 & Ht2).
  split; [congruence |]. split; [auto |]. split; [| auto].
  intros loc Hloc. destruct (Hn1 loc Hloc) as [H1 | H1].
  - auto.
  - right. by apply Hk2.
Qed.

Lemma extends_put (fs : filesystem) (parent : list string) (last : string)
    (s : off_t) :
  fs_stat fs parent = Some (Dir s) ->
  fs_stat fs (parent ++ [last]) = None ->
  extends fs (fs_put (parent ++ [last]) (Dir new_dir_size) fs).
Proof.
  intros Hpar Hnone. split; [reflexivity |]. split; [| split].
  - intros loc n Hloc. by apply fs_stat_put_keeps.
  - intros loc Hloc. destruct (decide (loc = parent ++ [last])) as [-> | Hne].
    + right. by apply fs_stat_put_same.
    + left. by rewrite fs_stat_put_ne.
  - intros Htree p c Hsome.
    destruct (decide (p ++ [c] = parent ++ [last])) as [Heq | Hne].
    + apply app_inj_tail in Heq as [-> ->].
      exists s. by apply fs_stat_put_keeps.
    + cbn in Hsome. rewrite lookup_insert_ne in Hsome by congruence.
      destruct (Htree p c Hsome) as [s' Hs'].
      exists s'. by apply fs_stat_put_keeps.
Qed.

(** *** Path resolution *)

Lemma step_name (cur : list string) (c : string) :
  is_name c = true -> c <> ".."%string -> step cur c = cur ++ [c].
Proof.
  unfold is_name, step. intros Hn Hdd.
  apply andb_true_iff in Hn as [H1 H2].
  apply negb_true_iff in H1, H2. rewrite H1, H2. cbn.
  destruct (String.eqb_spec c ".."); [contradiction | reflexivity].
Qed.

Lemma step_not_name (cur : list string) (c : string) :
  is_name c = false -> step cur c = cur.
Proof.
  unfold is_name, step. intros Hn.
  destruct (String.eqb c ""); [reflexivity |].
  destruct (String.eqb c "."); [reflexivity | discriminate].
Qed.

Lemma walk_app (fs : filesystem) (a b cur : list string) :
  walk fs cur (a ++ b)
  = match walk fs cur a with
    | inl e => inl e
    | inr loc => walk fs loc b
    end.
Proof.
  revert cur. induction a as [| c a IH]; intros cur; [reflexivity |].
  cbn [walk app]. destruct (fs_stat fs cur) as [[? | ?] |]; auto.
Qed.

(** A walk that ended at something that exists started in a directory. *)
Lemma walk_from_dir (fs : filesystem) (comps cur loc : list string) (s : off_t) :
  walk fs cur comps = inr loc -> fs_stat fs loc = Some (Dir s) ->
  exists s', fs_stat fs cur = Some (Dir s').
Proof.
  destruct comps as [| c comps]; cbn [walk].
  - intros [= ->] Hs. eauto.
  - destruct (fs_stat fs cur) as [[? | ?] |]; try discriminate. eauto.
Qed.

(** A walk that succeeds goes the same way in a larger filesystem. *)
Lemma walk_extends (fs fs' : filesystem) (comps cur loc : list string) :
  extends fs fs' -> walk fs cur comps = inr loc -> walk fs' cur comps = inr loc.
Proof.
  intros (_ & Hk & _). revert cur.
  induction comps as [| c comps IH]; intros cur; cbn [walk]; [done |].
  destruct (fs_stat fs cur) as [[? | sz] |] eqn:Hst; try discriminate.
  rewrite (Hk _ _ Hst). apply IH.
Qed.

(** Empty components and [.] do not matter for a walk that succeeds... *)
Lemma walk_filter (fs : filesystem) (comps cur loc : list string) :
  walk fs cur comps = inr loc ->
  walk fs cur (List.filter is_name comps) = inr loc.
Proof.
  revert cur. induction comps as [| c comps IH]; intros cur; cbn [walk List.filter];
    [done |].
  destruct (fs_stat fs cur) as [[? | sz] |] eqn:Hst; try discriminate.
  destruct (is_name c) eqn:Hn.
  - cbn [walk]. rewrite Hst. apply IH.
  - rewrite (step_not_name _ _ Hn). apply IH.
Qed.

(** ... nor for one that ends at a directory without them. *)
Lemma walk_unfilter (fs : filesystem) (comps cur loc : list string) (s : off_t) :
  walk fs cur (List.filter is_name comps) = inr loc ->
  fs_stat fs loc = Some (Dir s) ->
  walk fs cur comps = inr loc.
Proof.
  revert cur. induction comps as [| c comps IH]; intros cur Hw Hs;
    cbn [walk List.filter] in *; [done |].
  destruct (is_name c) eqn:Hn.
  - cbn [walk] in Hw.
    destruct (fs_stat fs cur) as [[? | sz] |] eqn:Hst; try discriminate.
    by apply IH.
  - destruct (walk_from_dir _ _ _ _ _ Hw Hs) as [s' ->].
    rewrite (step_not_name _ _ Hn). by apply IH.
Qed.

(** *** [stat] on a text and [is_dir] on a path *)

Lemma stat_Some (fs : filesystem) (path : string) (n : node) :
  stat fs path = Some n <->
  path <> ""%string /\
  exists loc, walk fs (start fs (startswith path "/")) (split_slash "" path) = inr loc
              /\ fs_stat fs loc = Some n.
Proof.
  unfold stat, stat_errno.
  destruct (String.eqb_spec path "") as [-> | Hne].
  - split; [discriminate | intros [[] _]; reflexivity].
  - destruct (walk _ _ _) as [e | loc].
    + split; [discriminate | intros (_ & loc & [=] & _)].
    + destruct (fs_stat fs loc) as [m |] eqn:Hst.
      * split.
        -- intros [= ->]. eauto.
        -- intros (_ & loc' & [= <-] & Hs). congruence.
      * split; [discriminate |].
        intros (_ & loc' & [= <-] & Hs). congruence.
Qed.

Lemma is_dir_true (fs : filesystem) (absolute : bool) (names : list string) :
  is_dir fs absolute names = true <->
  exists loc s, walk fs (start fs absolute) names = inr loc
                /\ fs_stat fs loc = Some (Dir s).
Proof.
  unfold is_dir. destruct (walk _ _ _) as [e | loc].
  - split; [discriminate | intros (? & ? & [=] & _)].
  - destruct (fs_stat fs loc) as [[sz | sz] |] eqn:Hst.
    + split; [discriminate | intros (? & ? & [= <-] & ?); congruence].
    + split; [eauto | reflexivity].
    + split; [discriminate | intros (? & ? & [= <-] & ?); congruence].
Qed.

(** A text whose [stat] is a directory is a path that [is_dir]. *)
Lemma stat_dir_is_dir (fs : filesystem) (path : string) (s : off_t) :
  stat fs path = Some (Dir s) ->
  is_dir fs (fst (pure_path path)) (snd (pure_path path)) = true.
Proof.
  intros (_ & loc & Hw & Hs)%stat_Some. apply is_dir_true.
  exists loc, s. split; [| exact Hs]. cbn. by apply walk_filter.
Qed.

Lemma is_dir_stat_dir (fs : filesystem) (path : string) :
  path <> ""%string ->
  is_dir fs (fst (pure_path path)) (snd (pure_path path)) = true ->
  exists s, stat fs path = Some (Dir s).
Proof.
  intros Hne (loc & s & Hw & Hs)%is_dir_true. exists s. apply stat_Some.
  split; [exact Hne |]. exists loc. split; [| exact Hs].
  cbn in Hw. eapply walk_unfilter; eauto.
Qed.

Lemma stat_extends (fs fs' : filesystem) (path : string) (n : node) :
  extends fs fs' -> stat fs path = Some n -> stat fs' path = Some n.
Proof.
  intros Hext (Hne & loc & Hw & Hs)%stat_Some. apply stat_Some.
  split; [exact Hne |]. exists loc.
  destruct Hext as (Hc & Hk & Hrest).
  split; [| by apply Hk].
  replace (start fs' (startswith path "/")) with (start fs (startswith path "/"))
    by (unfold start; rewrite Hc; reflexivity).
  eapply walk_extends; [| exact Hw]. by split.
Qed.

Lemma is_dir_extends (fs fs' : filesystem) (absolute : bool) (names : list string) :
  extends fs fs' -> is_dir fs absolute names = true ->
  is_dir fs' absolute names = true.
Proof.
  intros Hext (loc & s & Hw & Hs)%is_dir_true. apply is_dir_true.
  exists loc, s. pose proof Hext as (Hc & Hk & Hrest).
  split; [| by apply Hk].
  replace (start fs' absolute) with (start fs absolute)
    by (unfold start; rewrite Hc; reflexivity).
  eapply walk_extends; eauto.
Qed.

(** *** [mkdir] *)

Lemma mkdir_last_inr (fs fs' : filesystem) (parent : list string) (last : string) :
  mkdir_last fs parent last = inr fs' ->
  is_name last = true /\ last <> ".."%string /\
  fs_stat fs (parent ++ [last]) = None /\
  fs' = fs_put (parent ++ [last]) (Dir new_dir_size) fs.
Proof.
  unfold mkdir_last. destruct (is_name last); [| discriminate].
  destruct (String.eqb_spec last ".."); [discriminate |]. cbn.
  destruct (fs_stat fs (parent ++ [last])); [discriminate |].
  intros [= <-]. auto.
Qed.

Lemma mkdir_last_inl (fs : filesystem) (parent : list string) (last : string)
    (e : errno) :
  mkdir_last fs parent last = inl e ->
  e = EEXIST /\
  (is_name last = true -> last <> ".."%string ->
   is_Some (fs_stat fs (parent ++ [last]))).
Proof.
  unfold mkdir_last. destruct (is_name last).
  - destruct (String.eqb_spec last "..").
    + intros [= <-]. split; [reflexivity | contradiction].
    + cbn. destruct (fs_stat fs (parent ++ [last])); [| discriminate].
      intros [= <-]. split; [reflexivity | eauto].
  - intros [= <-]. split; [reflexivity | discriminate].
Qed.

(** [mkdir] fails where the walk along its path fails. *)
Lemma mkdir_at_err (fs : filesystem) (names cur : list string) (e : errno) :
  walk fs cur names = inl e -> mkdir_at fs cur names = inl e.
Proof.
  revert cur. induction names as [| c names IH]; intros cur; cbn [walk mkdir_at];
    [discriminate |].
  destruct (fs_stat fs cur) as [[? | sz] |]; try (intros [= <-]; reflexivity).
  destruct names as [| c' names]; [cbn; discriminate |]. apply IH.
Qed.

(** Where the walk goes through, the last step decides. *)
Lemma mkdir_at_ok (fs : filesystem) (init cur loc : list string) (last : string) :
  walk fs cur (init ++ [last]) = inr loc ->
  exists parent s,
    walk fs cur init = inr parent /\
    fs_stat fs parent = Some (Dir s) /\
    loc = step parent last /\
    mkdir_at fs cur (init ++ [last]) = mkdir_last fs parent last.
Proof.
  revert cur. induction init as [| c init IH]; intros cur; cbn [walk mkdir_at app].
  - destruct (fs_stat fs cur) as [[? | sz] |] eqn:Hst; try discriminate.
    intros [= <-]. exists cur, sz. auto.
  - destruct (fs_stat fs cur) as [[? | sz] |] eqn:Hst; try discriminate.
    intros Hw. destruct (IH _ Hw) as (parent & s & H1 & H2 & H3 & H4).
    exists parent, s. repeat split; try assumption.
    destruct (init ++ [last]) eqn:Hl; [by destruct init | exact H4].
Qed.

Lemma names_snoc (names : list string) :
  names <> [] -> exists init last, names = init ++ [last].
Proof.
  intros Hne. destruct (exists_last Hne) as (init & last & ->). eauto.
Qed.

(** [os.mkdir] by cases on the walk along its path. *)
Lemma os_mkdir_spec (fs : filesystem) (absolute : bool) (names : list string) :
  match walk fs (start fs absolute) names with
  | inl e => os_mkdir fs absolute names = inl e
  | inr loc =>
      (names = [] /\ os_mkdir fs absolute names = inl EEXIST) \/
      exists init last parent s,
        names = init ++ [last] /\
        walk fs (start fs absolute) init = inr parent /\
        fs_stat fs parent = Some (Dir s) /\
        loc = step parent last /\
        os_mkdir fs absolute names = mkdir_last fs parent last
  end.
Proof.
  unfold os_mkdir. destruct (walk _ _ _) as [e | loc] eqn:Hw.
  - by apply mkdir_at_err.
  - destruct names as [| c names]; [left; done |]. right.
    destruct (names_snoc (c :: names) ltac:(done)) as (init & last & Heq).
    rewrite Heq in Hw |- *.
    destruct (mkdir_at_ok _ _ _ _ _ Hw) as (parent & s & H1 & H2 & H3 & H4).
    exists init, last, parent, s. auto.
Qed.

(** What [os.mkdir] does when it succeeds. *)
Lemma os_mkdir_inr (fs fs' : filesystem) (absolute : bool) (names : list string) :
  os_mkdir fs absolute names = inr fs' ->
  exists parent last s,
    fs_stat fs parent = Some (Dir s) /\
    fs_stat fs (parent ++ [last]) = None /\
    fs' = fs_put (parent ++ [last]) (Dir new_dir_size) fs /\
    walk fs (start fs absolute) names = inr (parent ++ [last]).
Proof.
  intros Hmk. pose proof (os_mkdir_spec fs absolute names) as Hspec.
  destruct (walk _ _ _) as [e | loc]; [congruence |].
  destruct Hspec as [[_ He] | (init & last & parent & s & -> & Hw & Hp & -> & Heq)];
    [congruence |].
  rewrite Heq in Hmk. apply mkdir_last_inr in Hmk as (Hn & Hdd & Hnone & ->).
  exists parent, last, s. rewrite (step_name _ _ Hn Hdd). auto.
Qed.

Lemma os_mkdir_extends (fs fs' : filesystem) (absolute : bool)
    (names : list string) :
  os_mkdir fs absolute names = inr fs' ->
  extends fs fs' /\ is_dir fs' absolute names = true.
Proof.
  intros (parent & last & s & Hp & Hnone & -> & Hw)%os_mkdir_inr.
  pose proof (extends_put _ _ _ _ Hp Hnone) as Hext.
  split; [exact Hext |]. apply is_dir_true.
  exists (parent ++ [last]), new_dir_size.
  split; [| by apply fs_stat_put_same].
  change (start (fs_put _ _ fs) absolute) with (start fs absolute).
  eapply walk_extends; eauto.
Qed.

(** [os.mkdir] on a directory that is there: [EEXIST]. *)
Lemma os_mkdir_is_dir (fs : filesystem) (absolute : bool) (names : list string) :
  is_dir fs absolute names = true -> os_mkdir fs absolute names = inl EEXIST.
Proof.
  intros (loc & s & Hw & Hs)%is_dir_true.
  pose proof (os_mkdir_spec fs absolute names) as Hspec. rewrite Hw in Hspec.
  destruct Hspec as [[_ He] | (init & last & parent & s' & -> & Hw' & Hp & -> & Heq)];
    [exact He |].
  rewrite Heq. destruct (mkdir_last fs parent last) as [e | fs'] eqn:Hl.
  - by apply mkdir_last_inl in Hl as [-> _].
  - apply mkdir_last_inr in Hl as (Hn & Hdd & Hnone & _).
    rewrite (step_name _ _ Hn Hdd) in Hs. congruence.
Qed.

(** [os.mkdir] below a directory that is there: no [ENOENT]. *)
Lemma os_mkdir_below_dir (fs : filesystem) (absolute : bool) (init : list string)
    (last : string) :
  is_dir fs absolute init = true ->
  os_mkdir fs absolute (init ++ [last]) <> inl ENOENT.
Proof.
  intros (parent & s & Hw & Hs)%is_dir_true.
  pose proof (os_mkdir_spec fs absolute (init ++ [last])) as Hspec.
  rewrite walk_app, Hw in Hspec. cbn [walk] in Hspec. rewrite Hs in Hspec.
  destruct Hspec as [[Hnil _] | (init' & last' & parent' & s' & Heq & _ & _ & _ & Hmk)].
  - by destruct init.
  - rewrite Hmk. intros [? _]%mkdir_last_inl. discriminate.
Qed.

(** *** [Path.mkdir] *)

Lemma path_mkdir_one_extends (absolute : bool) (names : list string)
    (fs fs' : filesystem) (r : option (errno * list string)) :
  path_mkdir_one absolute names fs = (r, fs') ->
  extends fs fs' /\ (r = None -> is_dir fs' absolute names = true).
Proof.
  unfold path_mkdir_one.
  destruct (os_mkdir fs absolute names) as [e | fs1] eqn:Hmk.
  - destruct e.
    + intros [= <- <-]. split; [apply extends_refl | discriminate].
    + destruct (is_dir fs absolute names) eqn:Hd; intros [= <- <-];
        (split; [apply extends_refl | done]).
    + destruct (is_dir fs absolute names) eqn:Hd; intros [= <- <-];
        (split; [apply extends_refl | done]).
  - intros [= <- <-]. apply os_mkdir_extends in Hmk as [? ?]. auto.
Qed.

Lemma path_mkdir_parents_snoc (n : nat) (absolute : bool) (init : list string)
    (last : string) (fs : filesystem) :
  path_mkdir_parents (S n) absolute (init ++ [last]) fs
  = match os_mkdir fs absolute (init ++ [last]) with
    | inr fs' => (None, fs')
    | inl ENOENT =>
        match path_mkdir_parents n absolute init fs with
        | (None, fs1) => path_mkdir_one absolute (init ++ [last]) fs1
        | (Some e, fs1) => (Some e, fs1)
        end
    | inl e =>
        if is_dir fs absolute (init ++ [last]) then (None, fs)
        else (Some (e, init ++ [last]), fs)
    end.
Proof.
  cbn [path_mkdir_parents].
  destruct (init ++ [last]) as [| c l] eqn:Heq; [by destruct init |].
  rewrite <- Heq, removelast_last. reflexivity.
Qed.

(** Whatever [Path.mkdir] does, it only adds directories; when it
    succeeds its path is a directory. *)
Lemma path_mkdir_parents_extends (n : nat) (absolute : bool)
    (names : list string) (fs fs' : filesystem) (r : option (errno * list string)) :
  path_mkdir_parents n absolute names fs = (r, fs') ->
  extends fs fs' /\ (r = None -> is_dir fs' absolute names = true).
Proof.
  revert names fs fs' r. induction n as [| n IH]; intros names fs fs' r;
    cbn [path_mkdir_parents];
    destruct (os_mkdir fs absolute names) as [e | fs1] eqn:Hmk.
  - destruct e.
    + destruct names; intros [= <- <-]; (split; [apply extends_refl | done]).
    + destruct (is_dir fs absolute names) eqn:Hd; intros [= <- <-];
        (split; [apply extends_refl | done]).
    + destruct (is_dir fs absolute names) eqn:Hd; intros [= <- <-];
        (split; [apply extends_refl | done]).
  - intros [= <- <-]. apply os_mkdir_extends in Hmk as [? ?]. auto.
  - destruct e.
    + destruct names as [| c names].
      { intros [= <- <-]. split; [apply extends_refl | done]. }
      destruct (path_mkdir_parents n absolute (removelast (c :: names)) fs)
        as [[err |] fs2] eqn:Hrec.
      * intros [= <- <-]. apply IH in Hrec as [? _]. split; [done | done].
      * intros Hone. apply IH in Hrec as [Hext1 _].
        apply path_mkdir_one_extends in Hone as [Hext2 Hd].
        split; [by eapply extends_trans | exact Hd].
    + destruct (is_dir fs absolute names) eqn:Hd; intros [= <- <-];
        (split; [apply extends_refl | done]).
    + destruct (is_dir fs absolute names) eqn:Hd; intros [= <- <-];
        (split; [apply extends_refl | done]).
  - intros [= <- <-]. apply os_mkdir_extends in Hmk as [? ?]. auto.
Qed.

(** On a directory that is there [Path.mkdir] does nothing. *)
Lemma path_mkdir_parents_noop (n : nat) (absolute : bool) (names : list string)
    (fs : filesystem) :
  is_dir fs absolute names = true ->
  path_mkdir_parents n absolute names fs = (None, fs).
Proof.
  intros Hd. pose proof (os_mkdir_is_dir _ _ _ Hd) as Hmk.
  destruct n; cbn [path_mkdir_parents]; rewrite Hmk, Hd; reflexivity.
Qed.

(** [Path.mkdir(parents=True)] never ends with [FileNotFoundError]. *)
Lemma path_mkdir_parents_found (n : nat) (absolute : bool) (names : list string)
    (fs fs' : filesystem) (e : errno) (q : list string) :
  (length names <= n)%nat ->
  path_mkdir_parents n absolute names fs = (Some (e, q), fs') ->
  e <> ENOENT.
Proof.
  revert names fs fs' e q. induction n as [| n IH]; intros names fs fs' e q Hlen;
    cbn [path_mkdir_parents];
    destruct (os_mkdir fs absolute names) as [e1 | fs1] eqn:Hmk; try discriminate.
  - destruct names; [| cbn in Hlen; lia].
    cbv in Hmk. injection Hmk as <-.
    destruct (is_dir fs absolute []); [discriminate |]. by intros [= <- _ _].
  - destruct e1.
    + destruct names as [| c names]; [cbv in Hmk; discriminate |].
      destruct (path_mkdir_parents n absolute (removelast (c :: names)) fs)
        as [[err |] fs2] eqn:Hrec.
      * intros [= -> <-]. eapply IH; [| exact Hrec].
        destruct (names_snoc (c :: names) ltac:(done)) as (init & last & Heq).
        rewrite Heq in Hlen |- *. rewrite removelast_last.
        rewrite length_app in Hlen. cbn in Hlen. lia.
      * apply path_mkdir_parents_extends in Hrec as [_ Hd].
        specialize (Hd eq_refl).
        destruct (names_snoc (c :: names) ltac:(done)) as (init & last & Heq).
        rewrite Heq in Hd |- *. rewrite removelast_last in Hd.
        pose proof (os_mkdir_below_dir _ _ _ last Hd) as Hno.
        unfold path_mkdir_one.
        destruct (os_mkdir fs2 absolute (init ++ [last])) as [[] |];
          try congruence;
          destruct (is_dir fs2 absolute (init ++ [last])); congruence.
    + destruct (is_dir fs absolute names); [discriminate |]. by intros [= <- _ _].
    + destruct (is_dir fs absolute names); [discriminate |]. by intros [= <- _ _].
Qed.

(** *** Paths of plain names *)

Lemma plain_path_names (path : string) :
  plain_path path -> plain_names (snd (pure_path path)).
Proof.
  unfold plain_path, plain_names, pure_path. cbn [snd].
  rewrite !List.Forall_forall. intros Hp c Hin. split; [| by apply Hp].
  by apply List.filter_In in Hin as [_ ?].
Qed.

Lemma plain_names_app (a b : list string) :
  plain_names (a ++ b) <-> plain_names a /\ plain_names b.
Proof. apply Forall_app. Qed.

Lemma prefix_cons (cur : list string) (c : string) (comps : list string) (i : nat) :
  cur ++ take (S i) (c :: comps) = (cur ++ [c]) ++ take i comps.
Proof. cbn [take]. by rewrite <- app_assoc. Qed.

(** A walk along plain names goes down name by name, through
    directories. *)
Lemma walk_plain_inr (fs : filesystem) (comps cur loc : list string) :
  plain_names comps -> walk fs cur comps = inr loc ->
  loc = cur ++ comps /\
  forall i : nat, (i < length comps)%nat ->
    exists s, fs_stat fs (cur ++ take i comps) = Some (Dir s).
Proof.
  revert cur. induction comps as [| c comps IH]; intros cur Hp; cbn [walk].
  - intros [= <-]. split; [by rewrite app_nil_r | cbn; lia].
  - apply Forall_cons in Hp as [[Hn Hdd] Hp].
    destruct (fs_stat fs cur) as [[? | sz] |] eqn:Hst; try discriminate.
    rewrite (step_name _ _ Hn Hdd). intros Hw.
    destruct (IH _ Hp Hw) as [-> Hdirs].
    split; [by rewrite <- app_assoc |].
    intros [| i] Hi.
    + rewrite take_0, app_nil_r. eauto.
    + rewrite prefix_cons. apply Hdirs. cbn in Hi. lia.
Qed.


(** It fails at the first name that is not in a directory. *)
Lemma walk_plain_inl (fs : filesystem) (comps cur : list string) (e : errno) :
  plain_names comps -> walk fs cur comps = inl e ->
  exists j : nat, (j < length comps)%nat /\
    ((e = ENOENT /\ fs_stat fs (cur ++ take j comps) = None) \/
     (e = ENOTDIR /\ exists s, fs_stat fs (cur ++ take j comps) = Some (File s))).
Proof.
  revert cur. induction comps as [| c comps IH]; intros cur Hp; cbn [walk];
    [discriminate |].
  apply Forall_cons in Hp as [[Hn Hdd] Hp].
  destruct (fs_stat fs cur) as [[sz | sz] |] eqn:Hst.
  - intros [= <-]. exists 0%nat. rewrite take_0, app_nil_r.
    split; [cbn; lia | right; eauto].
  - rewrite (step_name _ _ Hn Hdd). intros Hw.
    destruct (IH _ Hp Hw) as (j & Hj & Hcase).
    exists (S j). rewrite prefix_cons. split; [cbn; lia | exact Hcase].
  - intros [= <-]. exists 0%nat. rewrite take_0, app_nil_r.
    split; [cbn; lia | left; eauto].
Qed.



(** [os.mkdir] of a plain name in a directory that is there, where no
    regular file has that name: the name is a directory already, or it is
    created. *)
Lemma os_mkdir_plain_below (fs : filesystem) (absolute : bool)
    (init : list string) (last : string) :
  plain_names (init ++ [last]) ->
  is_dir fs absolute init = true ->
  (forall s, fs_stat fs (start fs absolute ++ init ++ [last]) <> Some (File s)) ->
  (is_dir fs absolute (init ++ [last]) = true /\
   os_mkdir fs absolute (init ++ [last]) = inl EEXIST) \/
  (fs_stat fs (start fs absolute ++ init ++ [last]) = None /\
   os_mkdir fs absolute (init ++ [last])
   = inr (fs_put (start fs absolute ++ init ++ [last]) (Dir new_dir_size) fs)).
Proof.
  intros [Hpi Hpl]%plain_names_app (parent & s & Hw & Hs)%is_dir_true Hnofile.
  apply Forall_cons in Hpl as [[Hn Hdd] _].
  destruct (walk_plain_inr _ _ _ _ Hpi Hw) as [-> _].
  assert (Hwalk : walk fs (start fs absolute) (init ++ [last])
                  = inr (start fs absolute ++ init ++ [last])).
  { rewrite walk_app, Hw. cbn [walk]. rewrite Hs.
    by rewrite (step_name _ _ Hn Hdd), <- app_assoc. }
  destruct (fs_stat fs (start fs absolute ++ init ++ [last])) as [[sz | sz] |] eqn:Hst.
  - by destruct (Hnofile sz).
  - left. assert (Hd : is_dir fs absolute (init ++ [last]) = true)
      by (apply is_dir_true; eauto).
    split; [exact Hd | by apply os_mkdir_is_dir].
  - right. split; [reflexivity |].
    pose proof (os_mkdir_spec fs absolute (init ++ [last])) as Hspec.
    rewrite Hwalk in Hspec.
    destruct Hspec as [[Hnil _] | (init' & last' & parent' & s' & Heq & Hw' & _ & _ & Hmk)];
      [by destruct init |].
    apply app_inj_tail in Heq as [<- <-]. rewrite Hw in Hw'. injection Hw' as <-.
    rewrite Hmk. unfold mkdir_last. rewrite Hn. cbn.
    destruct (String.eqb_spec last ".."); [contradiction |].
    rewrite <- app_assoc, Hst. reflexivity.
Qed.

(** [Path.mkdir] along plain names on which no regular file sits: every
    missing directory is created, and nothing else. *)
Lemma path_mkdir_parents_creates (n : nat) (absolute : bool)
    (names : list string) (fs : filesystem) :
  plain_names names -> (length names <= n)%nat ->
  (forall (i : nat) s, (i <= length names)%nat ->
     fs_stat fs (start fs absolute ++ take i names) <> Some (File s)) ->
  exists fs',
    path_mkdir_parents n absolute names fs = (None, fs') /\
    (forall loc, fs_stat fs loc = None -> fs_stat fs' loc <> None ->
       exists i : nat, (i <= length names)%nat /\
         loc = start fs absolute ++ take i names).
Proof.
  revert names fs. induction n as [| n IH]; intros names fs Hplain Hlen Hnofile.
  - destruct names; [| cbn in Hlen; lia].
    exists fs. split; [| congruence].
    apply path_mkdir_parents_noop, is_dir_true.
    exists (start fs absolute), new_dir_size. split; [reflexivity | apply fs_stat_start].
  - destruct (decide (names = [])) as [-> | Hne].
    { exists fs. split; [| congruence].
      apply path_mkdir_parents_noop, is_dir_true.
      exists (start fs absolute), new_dir_size.
      split; [reflexivity | apply fs_stat_start]. }
    destruct (names_snoc _ Hne) as (init & last & ->).
    rewrite length_app in Hlen. cbn [length] in Hlen.
    pose proof Hplain as [Hpi _]%plain_names_app.
    assert (Hlast : forall s,
               fs_stat fs (start fs absolute ++ init ++ [last]) <> Some (File s)).
    { intros s. specialize (Hnofile (length (init ++ [last])) s ltac:(lia)).
      by rewrite firstn_all in Hnofile. }
    assert (Hfinal : forall fs1,
               extends fs fs1 -> is_dir fs1 absolute init = true ->
               (forall loc, fs_stat fs loc = None -> fs_stat fs1 loc <> None ->
                  exists i : nat, (i <= length (init ++ [last]))%nat /\
                    loc = start fs absolute ++ take i (init ++ [last])) ->
               forall r fs2,
                 (r, fs2) = path_mkdir_one absolute (init ++ [last]) fs1 ->
                 r = None /\
                 (forall loc, fs_stat fs loc = None -> fs_stat fs2 loc <> None ->
                    exists i : nat, (i <= length (init ++ [last]))%nat /\
                      loc = start fs absolute ++ take i (init ++ [last]))).
    { intros fs1 Hext Hd Hnew r fs2 Hone.
      pose proof Hext as (Hcwd & Hkeep & Hfresh & _).
      assert (Hstart : start fs1 absolute = start fs absolute)
        by (unfold start; by rewrite Hcwd).
      destruct (os_mkdir_plain_below fs1 absolute init last Hplain Hd)
        as [[Hd' Hmk] | [Hnone Hmk]].
      - intros s Hs. rewrite Hstart in Hs.
        destruct (fs_stat fs (start fs absolute ++ init ++ [last])) as [m |] eqn:Hst.
        + rewrite (Hkeep _ _ Hst) in Hs. injection Hs as ->. by eapply Hlast.
        + destruct (Hfresh _ Hst); congruence.
      - unfold path_mkdir_one in Hone. rewrite Hmk, Hd' in Hone.
        injection Hone as -> ->. auto.
      - unfold path_mkdir_one in Hone. rewrite Hmk in Hone.
        injection Hone as -> ->. split; [reflexivity |].
        intros loc Hloc Hloc2. rewrite Hstart in Hloc2.
        destruct (decide (loc = start fs absolute ++ init ++ [last])) as [-> | Hneq].
        + exists (length (init ++ [last])). split; [lia |]. by rewrite firstn_all.
        + rewrite fs_stat_put_ne in Hloc2 by done. by apply Hnew. }
    pose proof (os_mkdir_spec fs absolute (init ++ [last])) as Hspec.
    destruct (walk fs (start fs absolute) (init ++ [last])) as [e | loc] eqn:Hw.
    + destruct (walk_plain_inl _ _ _ _ Hplain Hw) as (j & Hj & [[-> Hnone] | [-> [s Hs]]]).
      2: { exfalso. apply (Hnofile j s); [lia | exact Hs]. }
      rewrite path_mkdir_parents_snoc, Hspec.
      destruct (IH init fs Hpi ltac:(lia)) as (fs1 & Hrec & Hnew1).
      { intros i s Hi. specialize (Hnofile i s ltac:(rewrite length_app; lia)).
        by rewrite take_app_le in Hnofile by lia. }
      rewrite Hrec.
      apply path_mkdir_parents_extends in Hrec as [Hext Hd].
      destruct (path_mkdir_one absolute (init ++ [last]) fs1) as [r fs2] eqn:Hone.
      destruct (Hfinal fs1 Hext (Hd eq_refl)) with (r := r) (fs2 := fs2) as [-> Hnew2];
        [| done | eauto].
      intros loc Hloc Hloc1. destruct (Hnew1 loc Hloc Hloc1) as (i & Hi & ->).
      exists i. split; [rewrite length_app; lia |]. by rewrite take_app_le by lia.
    + destruct Hspec as [[Hnil _] | (init' & last' & parent & s & Heq & Hwi & Hp & _ & _)];
        [by destruct init |].
      apply app_inj_tail in Heq as [<- <-].
      assert (Hd : is_dir fs absolute init = true) by (apply is_dir_true; eauto).
      destruct (os_mkdir_plain_below fs absolute init last Hplain Hd Hlast)
        as [[Hd' Hmk] | [Hnone Hmk]].
      * exists fs. split; [by apply path_mkdir_parents_noop | congruence].
      * exists (fs_put (start fs absolute ++ init ++ [last]) (Dir new_dir_size) fs).
        split; [cbn [path_mkdir_parents]; by rewrite Hmk |].
        intros q Hq Hq2.
        destruct (decide (q = start fs absolute ++ init ++ [last])) as [-> | Hneq].
        -- exists (length (init ++ [last])). split; [lia |]. by rewrite firstn_all.
        -- rewrite fs_stat_put_ne in Hq2 by done. congruence.
Qed.


(** *** [mkdir] on a text *)

Lemma mkdir_p_run (path : string) (fs fs' : filesystem) :
  mkdir_p path fs = Some fs' <-> mkdir_run path fs = (None, fs').
Proof.
  unfold mkdir_p. destruct (mkdir_run path fs) as [[err |] fs1].
  - split; discriminate.
  - split; intros [= ->]; reflexivity.
Qed.

Lemma mkdir_run_extends (path : string) (fs fs' : filesystem)
    (r : option (errno * list string)) :
  mkdir_run path fs = (r, fs') -> extends fs fs'.
Proof.
  unfold mkdir_run. destruct (pure_path path) as [absolute names].
  by intros [? _]%path_mkdir_parents_extends.
Qed.

(** Creating directories keeps what exists, and leaves a directory at
    the path. *)
Lemma mkdir_p_extends (path : string) (fs fs' : filesystem) :
  mkdir_p path fs = Some fs' ->
  extends fs fs' /\
  is_dir fs' (fst (pure_path path)) (snd (pure_path path)) = true.
Proof.
  intros Hmk%mkdir_p_run. unfold mkdir_run in Hmk.
  destruct (pure_path path) as [absolute names]. cbn [fst snd].
  apply path_mkdir_parents_extends in Hmk as [? Hd]. auto.
Qed.

Lemma stat_after_mkdir (path : string) (fs fs' : filesystem)
    (q : string) (n : node) :
  mkdir_p path fs = Some fs' -> stat fs q = Some n -> stat fs' q = Some n.
Proof.
  intros [Hext _]%mkdir_p_extends. by apply stat_extends.
Qed.

(** Where the directory is there, nothing is created. *)
Lemma mkdir_p_noop (path : string) (fs : filesystem) :
  is_dir fs (fst (pure_path path)) (snd (pure_path path)) = true ->
  mkdir_p path fs = Some fs.
Proof.
  intros Hd. apply mkdir_p_run. unfold mkdir_run.
  destruct (pure_path path) as [absolute names].
  by apply path_mkdir_parents_noop.
Qed.

(** The only errors: [NotADirectoryError] and [FileExistsError]. *)
Lemma mkdir_run_error (path : string) (fs fs' : filesystem) (e : errno)
    (q : list string) :
  mkdir_run path fs = (Some (e, q), fs') -> e = ENOTDIR \/ e = EEXIST.
Proof.
  unfold mkdir_run. destruct (pure_path path) as [absolute names].
  intros Hne%path_mkdir_parents_found; [| lia].
  destruct e; [done | auto | auto].
Qed.
(** ** One task *)

Lemma off_t_range (s : off_t) : 0 <= off_val s < 2 ^ 63.
Proof. destruct s as [z Hz]. cbn. lia. Qed.

Lemma format_file_size_off_t (s : off_t) : is_Some (format_file_size (off_val s)).
Proof.
  apply format_file_size_some. pose proof (off_t_range s).
  unfold float_int_bound. lia.
Qed.

Lemma stat_errno_inr (fs : filesystem) (path : string) (n : node) :
  stat fs path = Some n -> stat_errno fs path = inr n.
Proof.
  unfold stat. destruct (stat_errno fs path); [discriminate | congruence].
Qed.

(** Unfold the monad and the primitive calls. *)
Ltac run :=
  cbv beta iota delta
    [bind ret raise try_except print or_raise os_path_exists os_path_getsize
     path_mkdir call_format_file_size printed];
  cbn [w_fs w_out w_fetches].

(** Run on, using the facts [H1], [H2], ... about the calls. *)
Ltac run_with tac := run; repeat (progress tac; run).

(** Bring the printed lines into one list. *)
Ltac finish :=
  cbn [w_fs w_out w_fetches]; rewrite <- ?app_assoc; reflexivity.

Section OneTask.

Variable hf_hub_download : fetch_service.
Abbreviation download_model := (download_model hf_hub_download).
Abbreviation download_checked := (download_checked hf_hub_download).

(** [download_model] is the announcement, the creation of the directory
    and then the part from the existence check on; a directory that
    cannot be created ends it before the check. *)
Lemma download_model_run (t : model_info) (w : world) :
  download_model t w
  = match mkdir_run (local_dir t) (w_fs w) with
    | (None, fs1) =>
        download_checked (repo_id t) (filename t) (local_dir t)
          (mk_world fs1 (w_out w ++ announce t) (w_fetches w))
    | (Some (e, names), fs1) =>
        Raised (os_error e (path_text (fst (pure_path (local_dir t))) names))
          (mk_world fs1
             (w_out w ++ [ nl +:+ "📥 Downloading " +:+ description t;
                           "   Repository: " +:+ repo_id t;
                           "   File: " +:+ filename t;
                           "   Directory: " +:+ local_dir t ])
             (w_fetches w))
    end.
Proof.
  unfold download_model, create_directory, announce. run.
  destruct (mkdir_run (local_dir t) (w_fs w)) as [[[e names] |] fs1].
  - finish.
  - finish.
Qed.

Lemma download_model_mkdir (t : model_info) (w : world) (fs1 : filesystem) :
  mkdir_p (local_dir t) (w_fs w) = Some fs1 ->
  download_model t w
  = download_checked (repo_id t) (filename t) (local_dir t)
      (mk_world fs1 (w_out w ++ announce t) (w_fetches w)).
Proof.
  intros Hmk%mkdir_p_run. by rewrite download_model_run, Hmk.
Qed.

(** The target is there: no fetch. *)
Lemma download_checked_exists (t : model_info) (w : world) (n : node) :
  stat (w_fs w) (target_path t) = Some n ->
  exists text,
    format_file_size (off_val (node_size n)) = Some text /\
    download_checked (repo_id t) (filename t) (local_dir t) w
    = Done true (printed w [ "✓ File already exists: " +:+ target_path t;
                             "  Size: " +:+ text ]).
Proof.
  intros Hst. destruct (format_file_size_off_t (node_size n)) as [text Ht].
  exists text. split; [exact Ht |].
  unfold download_checked, file_exists. fold (target_path t).
  run_with ltac:(rewrite ?Hst, ?(stat_errno_inr _ _ _ Hst), ?Ht,
                   ?bool_decide_eq_true_2 by eauto).
  finish.
Qed.

(** The target is missing and the fetch service reports a file that is
    there. *)
Lemma download_checked_fetched (t : model_info) (w : world)
    (path : string) (fs2 : filesystem) (n : node) :
  stat (w_fs w) (target_path t) = None ->
  hf_hub_download (repo_id t) (filename t) (local_dir t) (w_fs w)
    = (Fetched path, fs2) ->
  stat fs2 path = Some n ->
  exists text,
    format_file_size (off_val (node_size n)) = Some text /\
    download_checked (repo_id t) (filename t) (local_dir t) w
    = Done true
        (mk_world fs2
           (w_out w ++ [ "   Downloading... (this may take a while)";
                         "✓ Successfully downloaded: " +:+ path;
                         "  Size: " +:+ text ])
           (w_fetches w ++ [(repo_id t, filename t, local_dir t)])).
Proof.
  intros Hst Hf Hp. destruct (format_file_size_off_t (node_size n)) as [text Ht].
  exists text. split; [exact Ht |].
  unfold download_checked, file_exists, download_attempt, call_hf_hub_download.
  fold (target_path t).
  assert (Hno : bool_decide (is_Some (@None node)) = false)
    by (apply bool_decide_eq_false_2; intros [? ?]; discriminate).
  run_with ltac:(rewrite ?Hst, ?Hf, ?Hp, ?(stat_errno_inr _ _ _ Hp), ?Ht, ?Hno,
                   ?bool_decide_eq_true_2 by eauto).
  finish.
Qed.

(** The target is missing and the fetch service raises. *)
Lemma download_checked_raised (t : model_info) (w : world)
    (e : string) (fs2 : filesystem) :
  stat (w_fs w) (target_path t) = None ->
  hf_hub_download (repo_id t) (filename t) (local_dir t) (w_fs w)
    = (FetchError e, fs2) ->
  download_checked (repo_id t) (filename t) (local_dir t) w
  = Done false
      (mk_world fs2
         (w_out w ++ [ "   Downloading... (this may take a while)";
                       "❌ Error downloading " +:+ filename t +:+ ": " +:+ e ])
         (w_fetches w ++ [(repo_id t, filename t, local_dir t)])).
Proof.
  intros Hst Hf.
  unfold download_checked, file_exists, download_attempt, call_hf_hub_download.
  fold (target_path t).
  assert (Hno : bool_decide (is_Some (@None node)) = false)
    by (apply bool_decide_eq_false_2; intros [? ?]; discriminate).
  run_with ltac:(rewrite ?Hst, ?Hf, ?Hno).
  finish.
Qed.

(** The target is missing and the fetch service raises something that
    is not an [Exception]: it goes through. *)
Lemma download_checked_aborted (t : model_info) (w : world)
    (class : string) (fs2 : filesystem) :
  stat (w_fs w) (target_path t) = None ->
  hf_hub_download (repo_id t) (filename t) (local_dir t) (w_fs w)
    = (FetchAbort class, fs2) ->
  download_checked (repo_id t) (filename t) (local_dir t) w
  = Raised (BaseException class "")
      (mk_world fs2
         (w_out w ++ [ "   Downloading... (this may take a while)" ])
         (w_fetches w ++ [(repo_id t, filename t, local_dir t)])).
Proof.
  intros Hst Hf.
  unfold download_checked, file_exists, download_attempt, call_hf_hub_download.
  fold (target_path t).
  assert (Hno : bool_decide (is_Some (@None node)) = false)
    by (apply bool_decide_eq_false_2; intros [? ?]; discriminate).
  run_with ltac:(rewrite ?Hst, ?Hf, ?Hno).
  finish.
Qed.

(** The target is missing and the file the fetch service reports is
    not there. *)
Lemma download_checked_lost (t : model_info) (w : world)
    (path : string) (fs2 : filesystem) :
  stat (w_fs w) (target_path t) = None ->
  hf_hub_download (repo_id t) (filename t) (local_dir t) (w_fs w)
    = (Fetched path, fs2) ->
  stat fs2 path = None ->
  download_checked (repo_id t) (filename t) (local_dir t) w
  = Done false
      (mk_world fs2
         (w_out w ++ [ "   Downloading... (this may take a while)";
                       "❌ Download failed: File not found at " +:+ path ])
         (w_fetches w ++ [(repo_id t, filename t, local_dir t)])).
Proof.
  intros Hst Hf Hp.
  unfold download_checked, file_exists, download_attempt, call_hf_hub_download.
  fold (target_path t).
  assert (Hno : bool_decide (is_Some (@None node)) = false)
    by (apply bool_decide_eq_false_2; intros [? ?]; discriminate).
  run_with ltac:(rewrite ?Hst, ?Hf, ?Hp, ?Hno).
  finish.
Qed.

End OneTask.

(** ** One round of the loop of [main] *)

Section OneRound.

Variable hf_hub_download : fetch_service.
Abbreviation download_model' := (download_model hf_hub_download).
Abbreviation main_step' := (main_step hf_hub_download).
Abbreviation main_loop' := (main_loop hf_hub_download).

(** A round in terms of what [download_model] answers. *)
Lemma main_step_run (count i : Z) (t : model_info) (c tot : Z) (w : world) :
  main_step' count i t (c, tot) w
  = match download_model' t (printed w [round_line count i t]) with
    | Done true w1 =>
        Done (c + 1, tot + size_at (w_fs w1) (target_path t)) w1
    | Done false w1 =>
        Done (c, tot) (printed w1 ["❌ Failed to download " +:+ filename t])
    | Raised e w1 => Raised e w1
    end.
Proof.
  unfold main_step, round_line, size_at. fold (target_path t). run.
  destruct (download_model' t _) as [[|] w1 | e w1]; try reflexivity.
  run. destruct (stat (w_fs w1) (target_path t)) as [n |] eqn:Hst.
  - rewrite bool_decide_eq_true_2 by eauto. run.
    rewrite (stat_errno_inr _ _ _ Hst). reflexivity.
  - rewrite bool_decide_eq_false_2 by (intros [? ?]; discriminate).
    rewrite Z.add_0_r. reflexivity.
Qed.

Lemma size_at_nonneg (fs : filesystem) (path : string) : 0 <= size_at fs path.
Proof.
  unfold size_at. destruct (stat fs path) as [n |]; [| lia].
  pose proof (off_t_range (node_size n)). lia.
Qed.

(** A round moves the counters up or not at all. *)
Lemma main_step_counters (count i : Z) (t : model_info) (c tot c' tot' : Z)
    (w w' : world) :
  main_step' count i t (c, tot) w = Done (c', tot') w' ->
  c <= c' <= c + 1 /\ tot <= tot'.
Proof.
  rewrite main_step_run.
  destruct (download_model' t _) as [[|] w1 | e w1]; intros H;
    inversion H; subst.
  - pose proof (size_at_nonneg (w_fs w') (target_path t)). lia.
  - lia.
Qed.

Lemma main_loop_app (count i : Z) (ts1 ts2 : list model_info)
    (acc : Z * Z) (w : world) :
  main_loop' count i (ts1 ++ ts2) acc w
  = match main_loop' count i ts1 acc w with
    | Done acc' w' => main_loop' count (i + Z.of_nat (length ts1)) ts2 acc' w'
    | Raised e w' => Raised e w'
    end.
Proof.
  revert i acc w. induction ts1 as [| t ts1 IH]; intros i acc w.
  - cbn. rewrite Z.add_0_r. reflexivity.
  - cbn [app main_loop length]. unfold bind.
    destruct (main_step' count i t acc w) as [acc1 w1 | e w1]; [| reflexivity].
    rewrite IH. replace (i + 1 + Z.of_nat (length ts1))
      with (i + Z.of_nat (S (length ts1))) by lia.
    reflexivity.
Qed.

Lemma main_loop_counters (count : Z) (ts : list model_info) (i c tot c' tot' : Z)
    (w w' : world) :
  main_loop' count i ts (c, tot) w = Done (c', tot') w' ->
  c <= c' <= c + Z.of_nat (length ts) /\ tot <= tot'.
Proof.
  revert i c tot w. induction ts as [| t ts IH]; intros i c tot w H.
  - cbn in H. inversion H; subst. cbn. lia.
  - cbn [main_loop] in H. unfold bind in H.
    destruct (main_step' count i t (c, tot) w) as [[c1 tot1] w1 | e w1] eqn:Hs;
      [| discriminate].
    apply main_step_counters in Hs. apply IH in H.
    cbn [length]. lia.
Qed.

End OneRound.


(** ** Where a round can go *)

(** What [download_model] does once the directory is ensured. *)
Lemma download_model_cases
    (hf : fetch_service) (t : model_info) (w : world) (fs1 : filesystem) :
  mkdir_p (local_dir t) (w_fs w) = Some fs1 ->
  (exists lines, w_out (world_of (download_model hf t w)) = w_out w ++ lines) /\
  match stat fs1 (target_path t) with
  | Some _ =>
      result_of (download_model hf t w) = Some true /\
      w_fs (world_of (download_model hf t w)) = fs1 /\
      w_fetches (world_of (download_model hf t w)) = w_fetches w
  | None =>
      w_fetches (world_of (download_model hf t w)) = w_fetches w ++ [request_of t] /\
      w_fs (world_of (download_model hf t w))
        = snd (hf (repo_id t) (filename t) (local_dir t) fs1) /\
      match fst (hf (repo_id t) (filename t) (local_dir t) fs1) with
      | Fetched path =>
          result_of (download_model hf t w)
          = Some (bool_decide
                    (is_Some (stat (snd (hf (repo_id t) (filename t) (local_dir t) fs1))
                                path)))
      | FetchError _ => result_of (download_model hf t w) = Some false
      | FetchAbort class =>
          download_model hf t w
          = Raised (BaseException class "") (world_of (download_model hf t w))
      end
  end.
Proof.
  intros Hmk. rewrite (download_model_mkdir hf t w fs1 Hmk).
  set (w1 := mk_world fs1 (w_out w ++ announce t) (w_fetches w)).
  destruct (stat fs1 (target_path t)) as [n |] eqn:Hst.
  - destruct (download_checked_exists hf t w1 n Hst) as (text & _ & Hrun).
    rewrite Hrun. unfold printed, w1. cbn [world_of result_of w_fs w_out w_fetches].
    rewrite <- app_assoc. eauto.
  - destruct (hf (repo_id t) (filename t) (local_dir t) fs1) as [reply fs2] eqn:Hf.
    cbn [fst snd]. destruct reply as [path | e | class].
    + destruct (stat fs2 path) as [n |] eqn:Hp.
      * destruct (download_checked_fetched hf t w1 path fs2 n Hst Hf Hp)
          as (text & _ & Hrun).
        rewrite Hrun. unfold w1. cbn [world_of result_of w_fs w_out w_fetches].
        rewrite <- app_assoc, bool_decide_eq_true_2 by eauto.
        split; [eauto |]. split; [reflexivity |]. split; reflexivity.
      * rewrite (download_checked_lost hf t w1 path fs2 Hst Hf Hp).
        unfold w1. cbn [world_of result_of w_fs w_out w_fetches].
        rewrite <- app_assoc, bool_decide_eq_false_2
          by (intros [? ?]; discriminate).
        split; [eauto |]. split; [reflexivity |]. split; reflexivity.
    + rewrite (download_checked_raised hf t w1 e fs2 Hst Hf).
      unfold w1. cbn [world_of result_of w_fs w_out w_fetches].
      rewrite <- app_assoc.
      split; [eauto |]. split; [reflexivity |]. split; reflexivity.
    + rewrite (download_checked_aborted hf t w1 class fs2 Hst Hf).
      unfold w1. cbn [world_of result_of w_fs w_out w_fetches].
      rewrite <- app_assoc.
      split; [eauto |]. split; [reflexivity |]. split; reflexivity.
Qed.

(** When the directory cannot be created. *)
Lemma download_model_blocked (hf : fetch_service) (t : model_info) (w : world) :
  mkdir_p (local_dir t) (w_fs w) = None ->
  exists e w',
    download_model hf t w = Raised e w' /\
    ((exists message, e = Exception "FileExistsError" message) \/
     (exists message, e = Exception "NotADirectoryError" message)) /\
    w_fetches w' = w_fetches w /\
    w_out w' = w_out w ++ [ nl +:+ "📥 Downloading " +:+ description t;
                            "   Repository: " +:+ repo_id t;
                            "   File: " +:+ filename t;
                            "   Directory: " +:+ local_dir t ].
Proof.
  intros Hmk. rewrite download_model_run. unfold mkdir_p in Hmk.
  destruct (mkdir_run (local_dir t) (w_fs w)) as [[[e names] |] fs1] eqn:Hrun;
    [| discriminate].
  eexists _, _. split; [reflexivity |]. split; [| split; reflexivity].
  destruct (mkdir_run_error _ _ _ _ _ Hrun) as [-> | ->]; cbn [os_error]; eauto.
Qed.

(** The lines printed stay, and at most the request of the task is
    sent. *)
Lemma download_model_out (hf : fetch_service) (t : model_info) (w : world) :
  exists lines, w_out (world_of (download_model hf t w)) = w_out w ++ lines.
Proof.
  destruct (mkdir_p (local_dir t) (w_fs w)) as [fs1 |] eqn:Hmk.
  - by destruct (download_model_cases hf t w fs1 Hmk) as [? _].
  - destruct (download_model_blocked hf t w Hmk) as (e & w' & -> & _ & _ & Hout).
    cbn [world_of]. eauto.
Qed.

Lemma download_model_fetches (hf : fetch_service) (t : model_info) (w : world) :
  exists l,
    w_fetches (world_of (download_model hf t w)) = w_fetches w ++ l /\
    (l = [] \/ l = [request_of t]).
Proof.
  destruct (mkdir_p (local_dir t) (w_fs w)) as [fs1 |] eqn:Hmk.
  - destruct (download_model_cases hf t w fs1 Hmk) as [_ Hcase].
    destruct (stat fs1 (target_path t)).
    + exists []. destruct Hcase as (_ & _ & ->). rewrite app_nil_r. auto.
    + exists [request_of t]. destruct Hcase as (-> & _). auto.
  - destruct (download_model_blocked hf t w Hmk) as (e & w' & -> & _ & Hf & _).
    exists []. cbn [world_of]. rewrite app_nil_r. auto.
Qed.


Lemma main_step_out (hf : fetch_service) (count i : Z) (t : model_info)
    (acc : Z * Z) (w : world) :
  exists lines,
    w_out (world_of (main_step hf count i t acc w))
    = w_out w ++ round_line count i t :: lines.
Proof.
  destruct acc as [c tot]. rewrite main_step_run.
  destruct (download_model_out hf t (printed w [round_line count i t]))
    as (lines & Hl).
  unfold printed in Hl at 2. cbn [w_out] in Hl. rewrite <- app_assoc in Hl.
  destruct (download_model hf t _) as [[|] w1 | e w1]; cbn [world_of] in *.
  - eauto.
  - exists (lines ++ ["❌ Failed to download " +:+ filename t]).
    unfold printed. cbn [w_out]. rewrite Hl, <- app_assoc. reflexivity.
  - eauto.
Qed.

Lemma main_loop_out (hf : fetch_service) (count : Z) (ts : list model_info)
    (i : Z) (acc : Z * Z) (w : world) :
  exists lines,
    w_out (world_of (main_loop hf count i ts acc w)) = w_out w ++ lines.
Proof.
  revert i acc w. induction ts as [| t ts IH]; intros i acc w.
  - exists []. cbn. by rewrite app_nil_r.
  - cbn [main_loop]. unfold bind.
    destruct (main_step_out hf count i t acc w) as (l1 & Hl1).
    destruct (main_step hf count i t acc w) as [acc1 w1 | e w1]; cbn [world_of] in *.
    + destruct (IH (i + 1) acc1 w1) as (l2 & Hl2).
      rewrite Hl2, Hl1, <- app_assoc. eauto.
    + eauto.
Qed.

Lemma main_step_fetches (hf : fetch_service) (count i : Z) (t : model_info)
    (acc : Z * Z) (w : world) :
  exists l,
    w_fetches (world_of (main_step hf count i t acc w)) = w_fetches w ++ l /\
    (l = [] \/ l = [request_of t]).
Proof.
  destruct acc as [c tot]. rewrite main_step_run.
  destruct (download_model_fetches hf t (printed w [round_line count i t]))
    as (l & Hl & Hcase).
  exists l. split; [| exact Hcase].
  destruct (download_model hf t _) as [[|] w1 | e w1]; exact Hl.
Qed.



(* ===================================================================== *)
(** * Part III: the download orchestrator *)
(* ===================================================================== *)

(** C1 (as amended). For a task whose target is missing once its
    directory is ensured, and for which the fetch service returns a path
    that exists afterwards: the round succeeds, the success count goes up
    by exactly one, and the total goes up by the size of the node found at
    the task's target path [os.path.join(local_dir, filename)] after the
    fetch (by nothing when there is none). When the service returned the
    target path itself, that is the size of the downloaded file. *)
Theorem C1_fetch_success_counts_target_size
    (hf : fetch_service) (count i : Z) (t : model_info) (c tot : Z)
    (w : world) (fs1 fs2 : filesystem) (path : string) (n : node) :
  mkdir_p (local_dir t) (w_fs w) = Some fs1 ->
  stat fs1 (target_path t) = None ->
  hf (repo_id t) (filename t) (local_dir t) fs1 = (Fetched path, fs2) ->
  stat fs2 path = Some n ->
  exists text,
    format_file_size (off_val (node_size n)) = Some text /\
    main_step hf count i t (c, tot) w
    = Done (c + 1, tot + size_at fs2 (target_path t))
        (mk_world fs2
           (w_out w ++ round_line count i t :: announce t
              ++ [ "   Downloading... (this may take a while)";
                   "✓ Successfully downloaded: " +:+ path;
                   "  Size: " +:+ text ])
           (w_fetches w ++ [(repo_id t, filename t, local_dir t)])) /\
    (path = target_path t ->
     size_at fs2 (target_path t) = off_val (node_size n)).
Proof.
  intros Hmk Hst Hf Hp.
  destruct (download_checked_fetched hf t
              (mk_world fs1 ((w_out w ++ [round_line count i t]) ++ announce t)
                 (w_fetches w))
              path fs2 n Hst Hf Hp) as (text & Ht & Hrun).
  exists text. split; [exact Ht |]. split.
  - rewrite main_step_run,
      (download_model_mkdir hf t (printed w [round_line count i t]) fs1 Hmk).
    unfold printed. cbn [w_fs w_out w_fetches]. rewrite Hrun.
    cbn [w_fs w_out w_fetches]. do 2 f_equal.
    rewrite <- !app_assoc. reflexivity.
  - intros ->. unfold size_at. rewrite Hp. reflexivity.
Qed.

(** A run of C1: nothing on disk, the service stores 100 bytes at the
    target path and returns it; the count is 1 and the total 100. *)
Lemma C1_witness :
  mkdir_p (local_dir model_2bit) (w_fs world0) = Some fs_2bit_dirs /\
  result_of (main_step (fetch_stores (bytes 100)) 3 1 model_2bit (0, 0) world0)
    = Some (1, 100).
Proof.
  assert (H1 : mkdir_p (local_dir model_2bit) (w_fs world0) = Some fs_2bit_dirs)
    by reflexivity.
  split; [exact H1 |].
  destruct (C1_fetch_success_counts_target_size (fetch_stores (bytes 100)) 3 1
              model_2bit 0 0 world0 _ _ (target_path model_2bit)
              (File (bytes 100)) H1 eq_refl eq_refl eq_refl)
    as (text & _ & Hrun & Hsize).
  rewrite Hrun, (Hsize eq_refl). reflexivity.
Defined.

(** C1 as stated fails: the service keeps the file in a cache directory
    and returns the path there, which exists (100 bytes); the target path
    stays empty. The round succeeds and the count goes up by one, but the
    total stays at 0 instead of going up by 100. *)
Lemma C1_counterexample :
  mkdir_p (local_dir model_2bit) (w_fs world0) = Some fs_2bit_dirs /\
  stat fs_2bit_dirs (target_path model_2bit) = None /\
  fst (fetch_into_cache (repo_id model_2bit) (filename model_2bit)
         (local_dir model_2bit) fs_2bit_dirs)
    = Fetched "cache/Qwen2.5-Coder-3B-Instruct-Q2_K.gguf" /\
  stat (w_fs (world_of (main_step fetch_into_cache 3 1 model_2bit (0, 0) world0)))
       "cache/Qwen2.5-Coder-3B-Instruct-Q2_K.gguf"
    = Some (File (bytes 100)) /\
  result_of (main_step fetch_into_cache 3 1 model_2bit (0, 0) world0)
    = Some (1, 0) /\
  result_of (main_step fetch_into_cache 3 1 model_2bit (0, 0) world0)
    <> Some (0 + 1, 0 + 100).
Proof.
  assert (Hrun : result_of (main_step fetch_into_cache 3 1 model_2bit (0, 0) world0)
                 = Some (1, 0)) by vm_refl.
  repeat split; try vm_refl. rewrite Hrun. discriminate.
Qed.

(** C2 (as amended). For a task whose target file exists already and
    whose directory can be ensured (no component of the directory is an
    existing non-directory): [download_model] answers success without a
    call of the fetch service (the list of calls is unchanged and the
    filesystem is the one left by the directory creation), and the round
    adds one to the success count and the size of the file that was there
    to the total. *)
Theorem C2_existing_target_skips_fetch
    (hf : fetch_service) (count i : Z) (t : model_info) (c tot : Z)
    (w : world) (fs1 : filesystem) (n : node) :
  mkdir_p (local_dir t) (w_fs w) = Some fs1 ->
  stat (w_fs w) (target_path t) = Some n ->
  exists text,
    format_file_size (off_val (node_size n)) = Some text /\
    download_model hf t w
    = Done true
        (mk_world fs1
           (w_out w ++ announce t
              ++ [ "✓ File already exists: " +:+ target_path t;
                   "  Size: " +:+ text ])
           (w_fetches w)) /\
    main_step hf count i t (c, tot) w
    = Done (c + 1, tot + off_val (node_size n))
        (mk_world fs1
           (w_out w ++ round_line count i t :: announce t
              ++ [ "✓ File already exists: " +:+ target_path t;
                   "  Size: " +:+ text ])
           (w_fetches w)).
Proof.
  intros Hmk Hst.
  pose proof (stat_after_mkdir _ _ _ _ _ Hmk Hst) as Hst1.
  destruct (format_file_size_off_t (node_size n)) as [text Ht].
  exists text. split; [exact Ht |].
  assert (Hdl : forall out,
             download_model hf t (mk_world (w_fs w) out (w_fetches w))
             = Done true
                 (mk_world fs1
                    (out ++ announce t
                       ++ [ "✓ File already exists: " +:+ target_path t;
                            "  Size: " +:+ text ])
                    (w_fetches w))).
  { intros out.
    rewrite (download_model_mkdir hf t (mk_world (w_fs w) out (w_fetches w)) fs1 Hmk).
    cbn [w_fs w_out w_fetches].
    destruct (download_checked_exists hf t
                (mk_world fs1 (out ++ announce t) (w_fetches w)) n Hst1)
      as (text' & Ht' & Hrun).
    rewrite Ht in Ht'. injection Ht' as <-.
    rewrite Hrun. unfold printed. cbn [w_fs w_out w_fetches].
    rewrite <- !app_assoc. reflexivity. }
  split.
  - destruct w as [fs out calls]. apply Hdl.
  - rewrite main_step_run. unfold printed. rewrite Hdl.
    cbn [w_fs]. unfold size_at. rewrite Hst1.
    do 2 f_equal. rewrite <- !app_assoc. reflexivity.
Qed.

(** A run of C2: the first model is on disk, 4242 bytes long; a fetch
    service that would raise is never asked. *)
Lemma C2_witness :
  mkdir_p (local_dir model_2bit) (w_fs world_have_2bit)
    = Some (w_fs world_have_2bit) /\
  stat (w_fs world_have_2bit) (target_path model_2bit)
    = Some (File (bytes 4242)) /\
  result_of (main_step fetch_raises 3 1 model_2bit (0, 0) world_have_2bit)
    = Some (1, 4242) /\
  w_fetches (world_of (main_step fetch_raises 3 1 model_2bit (0, 0) world_have_2bit))
    = [].
Proof.
  assert (H1 : mkdir_p (local_dir model_2bit) (w_fs world_have_2bit)
               = Some (w_fs world_have_2bit)) by reflexivity.
  assert (H2 : stat (w_fs world_have_2bit) (target_path model_2bit)
               = Some (File (bytes 4242))) by reflexivity.
  split; [exact H1 |]. split; [exact H2 |].
  destruct (C2_existing_target_skips_fetch fetch_raises 3 1 model_2bit 0 0
              world_have_2bit _ _ H1 H2) as (text & _ & _ & Hrun).
  rewrite Hrun. split; reflexivity.
Defined.

(** C2 as stated fails: the filename is an absolute path, so the target
    [/srv/model.gguf] exists whatever the directory is, and a regular file
    [models] blocks the creation of the directory: [create_directory]
    raises, outside any [try], and no success is reported. *)
Lemma C2_counterexample :
  target_path model_absolute = "/srv/model.gguf" /\
  stat (w_fs world_blocked) (target_path model_absolute) = Some (File (bytes 42)) /\
  raised_by (main_step fetch_raises 1 1 model_absolute (0, 0) world_blocked)
    = Some "FileExistsError" /\
  result_of (main_step fetch_raises 1 1 model_absolute (0, 0) world_blocked)
    <> Some (0 + 1, 0 + 42).
Proof.
  assert (Hrun : result_of (main_step fetch_raises 1 1 model_absolute (0, 0)
                              world_blocked) = None) by vm_refl.
  repeat split; try vm_refl. rewrite Hrun. discriminate.
Qed.

(** C3 (as amended). For a task whose target is missing once its
    directory is ensured, and for which the fetch service fails (it raises
    an [Exception], or the file it reports is not there afterwards):
    [download_model] answers failure, the round leaves both the success
    count and the total as they were and prints the failure line last, and
    the loop goes on with the remaining tasks from there. Every later task
    before which the rounds in between have ended is processed: the run
    is its round, started from the state those rounds left, followed by
    the rest of the loop, and its opening line is printed. *)
Theorem C3_fetch_failure_is_local
    (hf : fetch_service) (count i : Z) (t : model_info) (rest : list model_info)
    (c tot : Z) (w : world) (fs1 fs2 : filesystem) (reply : fetch_reply) :
  mkdir_p (local_dir t) (w_fs w) = Some fs1 ->
  stat fs1 (target_path t) = None ->
  hf (repo_id t) (filename t) (local_dir t) fs1 = (reply, fs2) ->
  fetch_failed reply fs2 ->
  exists w',
    result_of (download_model hf t (printed w [round_line count i t]))
      = Some false /\
    main_step hf count i t (c, tot) w = Done (c, tot) w' /\
    w_fs w' = fs2 /\
    last (w_out w') = Some ("❌ Failed to download " +:+ filename t) /\
    main_loop hf count i (t :: rest) (c, tot) w
    = main_loop hf count (i + 1) rest (c, tot) w' /\
    (forall (pre post : list model_info) (t' : model_info) (acc1 : Z * Z)
            (w1 : world),
       rest = pre ++ t' :: post ->
       main_loop hf count (i + 1) pre (c, tot) w' = Done acc1 w1 ->
       main_loop hf count i (t :: rest) (c, tot) w
       = (let* acc2 := main_step hf count (i + 1 + Z.of_nat (length pre)) t' acc1 in
          main_loop hf count (i + 1 + Z.of_nat (length pre) + 1) post acc2) w1 /\
       exists lines,
         w_out (world_of (main_loop hf count i (t :: rest) (c, tot) w))
         = w_out w1 ++ round_line count (i + 1 + Z.of_nat (length pre)) t' :: lines).
Proof.
  intros Hmk Hst Hf Hfail.
  set (w1 := mk_world fs1 ((w_out w ++ [round_line count i t]) ++ announce t)
               (w_fetches w)).
  assert (Hdl : exists w2,
             download_model hf t (printed w [round_line count i t]) = Done false w2
             /\ w_fs w2 = fs2).
  { rewrite (download_model_mkdir hf t (printed w [round_line count i t]) fs1 Hmk).
    unfold printed. cbn [w_fs w_out w_fetches].
    fold w1. destruct reply as [path | e | class]; cbn in Hfail.
    - rewrite (download_checked_lost hf t w1 path fs2 Hst Hf Hfail).
      eexists. split; reflexivity.
    - rewrite (download_checked_raised hf t w1 e fs2 Hst Hf).
      eexists. split; reflexivity.
    - contradiction. }
  destruct Hdl as (w2 & Hdl & Hfs).
  exists (printed w2 ["❌ Failed to download " +:+ filename t]).
  assert (Hstep : main_step hf count i t (c, tot) w
                  = Done (c, tot) (printed w2 ["❌ Failed to download " +:+ filename t])).
  { rewrite main_step_run, Hdl. reflexivity. }
  assert (Hloop : main_loop hf count i (t :: rest) (c, tot) w
                  = main_loop hf count (i + 1) rest (c, tot)
                      (printed w2 ["❌ Failed to download " +:+ filename t])).
  { cbn [main_loop]. unfold bind. rewrite Hstep. reflexivity. }
  split; [rewrite Hdl; reflexivity |]. split; [exact Hstep |].
  split; [exact Hfs |]. split; [| split; [exact Hloop |]].
  - unfold printed. cbn [w_out]. apply last_snoc.
  - intros pre post t' acc1 w3 -> Hpre.
    assert (Heq : main_loop hf count i (t :: pre ++ t' :: post) (c, tot) w
                  = (let* acc2 := main_step hf count (i + 1 + Z.of_nat (length pre))
                                    t' acc1 in
                     main_loop hf count (i + 1 + Z.of_nat (length pre) + 1) post acc2)
                      w3).
    { rewrite Hloop, main_loop_app, Hpre. reflexivity. }
    split; [exact Heq |]. rewrite Heq. unfold bind.
    destruct (main_step_out hf count (i + 1 + Z.of_nat (length pre)) t' acc1 w3)
      as (l1 & Hl1).
    destruct (main_step hf count (i + 1 + Z.of_nat (length pre)) t' acc1 w3)
      as [acc2 w4 | e w4]; cbn [world_of] in Hl1.
    + destruct (main_loop_out hf count post
                  (i + 1 + Z.of_nat (length pre) + 1) acc2 w4) as (l2 & Hl2).
      rewrite Hl2, Hl1, <- app_assoc. eauto.
    + eauto.
Qed.

(** A run of C3: the service raises for the first model; the count and
    the total stay at 0 and the loop goes on with the second model, whose
    opening line is printed. *)
Lemma C3_witness :
  mkdir_p (local_dir model_2bit) (w_fs world0) = Some fs_2bit_dirs /\
  fetch_failed (FetchError "connection refused") fs_2bit_dirs /\
  exists w',
    main_step fetch_raises 3 1 model_2bit (0, 0) world0 = Done (0, 0) w' /\
    main_loop fetch_raises 3 1 MODELS (0, 0) world0
    = main_loop fetch_raises 3 (1 + 1) (tail MODELS) (0, 0) w' /\
    exists lines,
      w_out (world_of (main_loop fetch_raises 3 1 MODELS (0, 0) world0))
      = w_out w' ++ round_line 3 2 model_3bit :: lines.
Proof.
  assert (H1 : mkdir_p (local_dir model_2bit) (w_fs world0) = Some fs_2bit_dirs)
    by reflexivity.
  split; [exact H1 |]. split; [exact I |].
  destruct (C3_fetch_failure_is_local fetch_raises 3 1 model_2bit (tail MODELS)
              0 0 world0 _ _ (FetchError "connection refused")
              H1 eq_refl eq_refl I) as (w' & _ & Hstep & _ & _ & Hloop & Hlater).
  exists w'. split; [exact Hstep |]. split; [exact Hloop |].
  destruct (Hlater [] [model_4bit] model_3bit (0, 0) w' eq_refl eq_refl)
    as [_ Hout].
  exact Hout.
Defined.

(** C3 as stated fails: on the three models with a fetch service that
    always raises, in a world where a regular file [models/3bit] sits
    where the directory of the second model would go, the fetch for the
    first model fails as in the claim, but the second round raises
    [FileExistsError] from [create_directory], outside any [try]: the run
    ends there and the third model is never processed. *)
Lemma C3_counterexample :
  mkdir_p (local_dir model_2bit) (w_fs world_3bit_is_file)
    = Some (fs_put ["project"; "models"; "2bit"]%string (Dir new_dir_size)
              (w_fs world_3bit_is_file)) /\
  stat (fs_put ["project"; "models"; "2bit"]%string (Dir new_dir_size)
          (w_fs world_3bit_is_file))
       (target_path model_2bit) = None /\
  fetch_raises (repo_id model_2bit) (filename model_2bit) (local_dir model_2bit)
    (fs_put ["project"; "models"; "2bit"]%string (Dir new_dir_size)
       (w_fs world_3bit_is_file))
    = (FetchError "connection refused",
       fs_put ["project"; "models"; "2bit"]%string (Dir new_dir_size)
         (w_fs world_3bit_is_file)) /\
  result_of (main_step fetch_raises 3 1 model_2bit (0, 0) world_3bit_is_file)
    = Some (0, 0) /\
  raised_by (main_loop fetch_raises 3 1 MODELS (0, 0) world_3bit_is_file)
    = Some "FileExistsError" /\
  existsb (String.eqb (round_line 3 2 model_3bit))
    (w_out (world_of (main_loop fetch_raises 3 1 MODELS (0, 0) world_3bit_is_file)))
    = true /\
  existsb (String.eqb (round_line 3 3 model_4bit))
    (w_out (world_of (main_loop fetch_raises 3 1 MODELS (0, 0) world_3bit_is_file)))
    = false /\
  raised_by (main fetch_raises world_3bit_is_file) = Some "FileExistsError" /\
  result_of (main fetch_raises world_3bit_is_file) <> Some tt.
Proof.
  assert (Hrun : result_of (main fetch_raises world_3bit_is_file) = None)
    by vm_refl.
  repeat split; try vm_refl. rewrite Hrun. discriminate.
Qed.

(** Creating a directory twice is creating it once. *)
Lemma mkdir_p_twice (path : string) (fs fs1 : filesystem) :
  mkdir_p path fs = Some fs1 -> mkdir_p path fs1 = Some fs1.
Proof.
  intros [_ Hd]%mkdir_p_extends. by apply mkdir_p_noop.
Qed.

Lemma create_directory_run (path : string) (w : world) :
  create_directory path w
  = match mkdir_run path (w_fs w) with
    | (None, fs') =>
        Done tt (mk_world fs' (w_out w ++ ["✓ Created directory: " +:+ path])
                   (w_fetches w))
    | (Some (e, names), fs') =>
        Raised (os_error e (path_text (fst (pure_path path)) names))
          (mk_world fs' (w_out w) (w_fetches w))
    end.
Proof.
  unfold create_directory. run.
  by destruct (mkdir_run path (w_fs w)) as [[[e names] |] fs'].
Qed.

Lemma create_directory_there (path : string) (w : world) :
  is_dir (w_fs w) (fst (pure_path path)) (snd (pure_path path)) = true ->
  create_directory path w = Done tt (printed w ["✓ Created directory: " +:+ path]).
Proof.
  intros Hd%mkdir_p_noop%mkdir_p_run. by rewrite create_directory_run, Hd.
Qed.

(** Creating a directory of plain names on whose way no regular file
    sits: every directory on the way is there afterwards, what existed is
    unchanged, and what is new is a directory on the way. *)
Lemma mkdir_p_plain (path : string) (fs : filesystem) :
  plain_path path ->
  (forall (i : nat) s, (i <= length (snd (pure_path path)))%nat ->
     fs_stat fs (prefix_loc fs path i) <> Some (File s)) ->
  exists fs1,
    mkdir_p path fs = Some fs1 /\
    (forall i : nat, (i <= length (snd (pure_path path)))%nat ->
       exists s, fs_stat fs1 (prefix_loc fs path i) = Some (Dir s)) /\
    (forall loc n, fs_stat fs loc = Some n -> fs_stat fs1 loc = Some n) /\
    (forall loc, fs_stat fs loc = None ->
       fs_stat fs1 loc = None \/
       (fs_stat fs1 loc = Some (Dir new_dir_size) /\
        exists i : nat, (i <= length (snd (pure_path path)))%nat /\
          loc = prefix_loc fs path i)).
Proof.
  intros Hplain%plain_path_names Hnofile. unfold prefix_loc in *.
  unfold mkdir_p, mkdir_run.
  destruct (pure_path path) as [absolute names]. cbn [fst snd] in *.
  destruct (path_mkdir_parents_creates (length names) absolute names fs
              Hplain ltac:(lia) Hnofile) as (fs1 & Hrun & Hnew).
  exists fs1. rewrite Hrun. split; [reflexivity |].
  pose proof (path_mkdir_parents_extends _ _ _ _ _ _ Hrun) as [Hext Hd].
  pose proof Hext as (Hcwd & Hkeep & Hfresh & _).
  split; [| split; [exact Hkeep |]].
  - specialize (Hd eq_refl). apply is_dir_true in Hd as (loc & s & Hw & Hs).
    assert (Hstart : start fs1 absolute = start fs absolute)
      by (unfold start; by rewrite Hcwd).
    rewrite Hstart in Hw.
    destruct (walk_plain_inr _ _ _ _ Hplain Hw) as [-> Hdirs].
    intros i Hi. destruct (decide (i = length names)) as [-> | Hne].
    + rewrite firstn_all. eauto.
    + apply Hdirs. lia.
  - intros loc Hloc. destruct (Hfresh loc Hloc) as [H | H]; [by left |].
    right. split; [exact H |]. apply Hnew; [exact Hloc | congruence].
Qed.

(** C8. Whenever [download_model] reaches the existence check, the
    creation of the task's directory has run before it: the check and all
    that follows see a filesystem in which the directory exists and
    everything that existed before is unchanged. When the creation raises
    ([FileExistsError] or [NotADirectoryError]), the check is never
    reached: nothing is printed after the announcement and no fetch is
    made. Parent directories are created as needed: for a directory path
    of plain names on whose way no regular file sits, the creation
    succeeds, every directory on the way is there afterwards, and nothing
    is added but missing directories on the way. The creation is
    idempotent: where the directory exists [create_directory] ends
    without an error and leaves the filesystem as it was, and creating
    twice leaves what creating once left. *)
Theorem C8_directory_ensured_idempotent
    (hf : fetch_service) (t : model_info) (w : world) :
  (forall fs1,
     mkdir_p (local_dir t) (w_fs w) = Some fs1 ->
     is_dir fs1 (fst (pure_path (local_dir t))) (snd (pure_path (local_dir t)))
       = true /\
     (local_dir t <> ""%string -> exists s, stat fs1 (local_dir t) = Some (Dir s)) /\
     (forall loc n, fs_stat (w_fs w) loc = Some n -> fs_stat fs1 loc = Some n) /\
     download_model hf t w
     = download_checked hf (repo_id t) (filename t) (local_dir t)
         (mk_world fs1 (w_out w ++ announce t) (w_fetches w))) /\
  (mkdir_p (local_dir t) (w_fs w) = None ->
     (raised_by (download_model hf t w) = Some "FileExistsError"%string \/
      raised_by (download_model hf t w) = Some "NotADirectoryError"%string) /\
     w_fetches (world_of (download_model hf t w)) = w_fetches w /\
     w_out (world_of (download_model hf t w))
     = w_out w ++ [ nl +:+ "📥 Downloading " +:+ description t;
                    "   Repository: " +:+ repo_id t;
                    "   File: " +:+ filename t;
                    "   Directory: " +:+ local_dir t ]) /\
  (plain_path (local_dir t) ->
   (forall (i : nat) s, (i <= length (snd (pure_path (local_dir t))))%nat ->
      fs_stat (w_fs w) (prefix_loc (w_fs w) (local_dir t) i) <> Some (File s)) ->
   exists fs1,
     mkdir_p (local_dir t) (w_fs w) = Some fs1 /\
     (forall i : nat, (i <= length (snd (pure_path (local_dir t))))%nat ->
        exists s, fs_stat fs1 (prefix_loc (w_fs w) (local_dir t) i) = Some (Dir s)) /\
     (forall loc n, fs_stat (w_fs w) loc = Some n -> fs_stat fs1 loc = Some n) /\
     (forall loc, fs_stat (w_fs w) loc = None ->
        fs_stat fs1 loc = None \/
        (fs_stat fs1 loc = Some (Dir new_dir_size) /\
         exists i : nat, (i <= length (snd (pure_path (local_dir t))))%nat /\
           loc = prefix_loc (w_fs w) (local_dir t) i))) /\
  (forall s,
     stat (w_fs w) (local_dir t) = Some (Dir s) ->
     create_directory (local_dir t) w
     = Done tt (printed w ["✓ Created directory: " +:+ local_dir t])) /\
  (forall fs1,
     mkdir_p (local_dir t) (w_fs w) = Some fs1 ->
     mkdir_p (local_dir t) fs1 = Some fs1).
Proof.
  split; [| split; [| split; [| split]]].
  - intros fs1 Hmk. pose proof (mkdir_p_extends _ _ _ Hmk) as [Hext Hd].
    split; [exact Hd |]. split; [intros Hne; by apply is_dir_stat_dir |].
    split; [apply Hext |]. by apply download_model_mkdir.
  - intros Hmk.
    destruct (download_model_blocked hf t w Hmk)
      as (e & w' & -> & Hcase & Hf & Hout).
    cbn [raised_by world_of]. split; [| auto].
    destruct Hcase as [[m ->] | [m ->]]; auto.
  - apply mkdir_p_plain.
  - intros s Hst. apply create_directory_there. by apply stat_dir_is_dir with s.
  - intros fs1. apply mkdir_p_twice.
Qed.

(** A run of C8: nothing on disk; the creation of [models/2bit] makes
    [models] and [models/2bit], and a second creation changes nothing. *)
Lemma C8_witness :
  exists fs1,
    mkdir_p "models/2bit" fs0 = Some fs1 /\
    fs_stat fs0 ["project"; "models"]%string = None /\
    fs_stat fs0 ["project"; "models"; "2bit"]%string = None /\
    (exists s, fs_stat fs1 ["project"; "models"]%string = Some (Dir s)) /\
    (exists s, fs_stat fs1 ["project"; "models"; "2bit"]%string = Some (Dir s)) /\
    mkdir_p "models/2bit" fs1 = Some fs1.
Proof.
  assert (Hlen : length (snd (pure_path (local_dir model_2bit))) = 2%nat)
    by reflexivity.
  destruct (C8_directory_ensured_idempotent fetch_raises model_2bit world0)
    as (_ & _ & Hcreate & _ & Htwice).
  destruct Hcreate as (fs1 & Hmk & Hdirs & _).
  - unfold plain_path.
    change (snd (pure_path (local_dir model_2bit))) with ["models"; "2bit"]%string.
    do 2 (constructor; [discriminate |]). constructor.
  - intros i s Hi.
    destruct i as [| [| [| i]]]; [discriminate | discriminate | discriminate |].
    rewrite Hlen in Hi. lia.
  - exists fs1. split; [exact Hmk |].
    split; [reflexivity |]. split; [reflexivity |].
    split; [exact (Hdirs 1%nat ltac:(rewrite Hlen; lia)) |].
    split; [exact (Hdirs 2%nat ltac:(rewrite Hlen; lia)) |].
    exact (Htwice fs1 Hmk).
Defined.

(** C9. In a run from [(0, 0)], look at any task [t] of the list and at
    the state before it ([ts1] processed) and after it: the success count
    and the total have not gone down, the count is at most the number of
    tasks processed so far (so at most the length of the list), and both
    are non-negative. A run over the whole list passes through that
    state. *)
Theorem C9_counters_monotone_bounded
    (hf : fetch_service) (count i : Z) (ts1 ts2 : list model_info)
    (t : model_info) (c' tot' : Z) (w w' : world) :
  main_loop hf count i (ts1 ++ [t]) (0, 0) w = Done (c', tot') w' ->
  exists c tot w1,
    main_loop hf count i ts1 (0, 0) w = Done (c, tot) w1 /\
    main_step hf count (i + Z.of_nat (length ts1)) t (c, tot) w1
      = Done (c', tot') w' /\
    0 <= c <= c' /\ 0 <= tot <= tot' /\
    c <= Z.of_nat (length ts1) /\
    c' <= Z.of_nat (length (ts1 ++ [t])) <= Z.of_nat (length (ts1 ++ [t] ++ ts2)) /\
    main_loop hf count i (ts1 ++ [t] ++ ts2) (0, 0) w
    = main_loop hf count (i + Z.of_nat (length (ts1 ++ [t]))) ts2 (c', tot') w'.
Proof.
  intros Hrun. pose proof Hrun as Hrun'.
  rewrite main_loop_app in Hrun'.
  destruct (main_loop hf count i ts1 (0, 0) w) as [[c tot] w1 | e w1] eqn:H1;
    [| discriminate].
  cbn [main_loop] in Hrun'. unfold bind in Hrun'.
  destruct (main_step hf count (i + Z.of_nat (length ts1)) t (c, tot) w1)
    as [[c2 tot2] w2 | e w2] eqn:H2; [| discriminate].
  cbn in Hrun'. injection Hrun' as -> -> ->.
  exists c, tot, w1.
  pose proof (main_loop_counters hf _ _ _ _ _ _ _ _ _ H1) as [Hc1 Ht1].
  pose proof (main_step_counters hf _ _ _ _ _ _ _ _ _ H2) as [Hc2 Ht2].
  split; [reflexivity |]. split; [exact H2 |].
  rewrite !length_app. cbn [length].
  repeat split; try lia.
  rewrite app_assoc, main_loop_app, Hrun. rewrite length_app. reflexivity.
Qed.

(** A run of C9: the first two models are fetched, 100 and 200 bytes;
    after the first round the count is 1 and the total 100, after the
    second round they are 2 and 300. *)
Lemma C9_witness :
  result_of (main_loop fetch_two_of_three 3 1 (take 1 MODELS ++ [model_3bit]) (0, 0) world0)
    = Some (2, 300) /\
  result_of (main_loop fetch_two_of_three 3 1 (take 1 MODELS) (0, 0) world0)
    = Some (1, 100).
Proof.
  assert (Hr : result_of (main_loop fetch_two_of_three 3 1
                            (take 1 MODELS ++ [model_3bit]) (0, 0) world0)
               = Some (2, 300)) by vm_refl.
  split; [exact Hr |].
  destruct (main_loop fetch_two_of_three 3 1 (take 1 MODELS ++ [model_3bit])
              (0, 0) world0) as [[c' tot'] w' | e w'] eqn:H; [| discriminate Hr].
  injection Hr as -> ->.
  destruct (C9_counters_monotone_bounded fetch_two_of_three 3 1 (take 1 MODELS)
              [] model_3bit 2 300 world0 w' H)
    as (c & tot & w1 & H1 & _).
  vm_refl.
Defined.

(** ** The whole run *)

Lemma size_at_bound (fs : filesystem) (path : string) : size_at fs path < 2 ^ 63.
Proof.
  unfold size_at. destruct (stat fs path) as [n |]; [| lia].
  pose proof (off_t_range (node_size n)). lia.
Qed.

Lemma main_loop_total_bound (hf : fetch_service) (count : Z)
    (ts : list model_info) (i c tot c' tot' : Z) (w w' : world) :
  main_loop hf count i ts (c, tot) w = Done (c', tot') w' ->
  tot' <= tot + Z.of_nat (length ts) * 2 ^ 63.
Proof.
  revert i c tot w. induction ts as [| t ts IH]; intros i c tot w H.
  - cbn in H. inversion H; subst. cbn. lia.
  - cbn [main_loop] in H. unfold bind in H.
    destruct (main_step hf count i t (c, tot) w) as [[c1 tot1] w1 | e w1] eqn:Hs;
      [| discriminate].
    apply IH in H. rewrite main_step_run in Hs.
    assert (tot1 <= tot + 2 ^ 63).
    { destruct (download_model hf t _) as [[|] w2 | e w2]; inversion Hs; subst.
      - pose proof (size_at_bound (w_fs w1) (target_path t)). lia.
      - lia. }
    cbn [length]. lia.
Qed.

(** [main_on] is the banner, the loop and the summary; the summary is
    not reached when a round raises. *)
Lemma main_on_run (hf : fetch_service) (ts : list model_info) (w : world) :
  main_on hf ts w
  = match main_loop hf (Z.of_nat (length ts)) 1 ts (0, 0)
            (printed w (banner (Z.of_nat (length ts)))) with
    | Done (c, tot) w1 =>
        match format_file_size tot with
        | Some text =>
            Done tt (printed w1 (summary_lines (Z.of_nat (length ts)) c text))
        | None =>
            Raised (Exception "OverflowError" "int too large to convert to float")
              (printed w1 (take 4 (summary_lines (Z.of_nat (length ts)) c "")))
        end
    | Raised e w1 => Raised e w1
    end.
Proof.
  unfold main_on, banner. run.
  replace (mk_world (w_fs w) ((((w_out w ++ ["Mobile LLM Battery Benchmark - Model Downloader"]) ++ [str_repeat "=" 50]) ++ ["Total models: " +:+ str_int (Z.of_nat (length ts))]) ++ ["Models: Qwen2.5-Coder-3B-Instruct (2bit, 3bit, 4bit)"]) (w_fetches w))
    with (mk_world (w_fs w) (w_out w ++ ["Mobile LLM Battery Benchmark - Model Downloader"; str_repeat "=" 50; "Total models: " +:+ str_int (Z.of_nat (length ts)); "Models: Qwen2.5-Coder-3B-Instruct (2bit, 3bit, 4bit)"]) (w_fetches w))
    by (rewrite <- !app_assoc; reflexivity).
  destruct (main_loop hf _ 1 ts (0, 0) _) as [[c tot] w1 | e w1]; [| reflexivity].
  unfold print_summary, summary_lines. run.
  destruct (format_file_size tot) as [text |].
  - run. destruct (c =? Z.of_nat (length ts)); run; finish.
  - finish.
Qed.

(** C5. When every round of [main] has ended, [main] prints the summary
    after what the rounds printed: the number of successes over the
    number of tasks, the total size as [format_file_size] renders it
    (which never fails here), and then the next-steps hint if the count
    equals the number of tasks, else the retry hint with the number of
    failed tasks; when a round raises, the run ends there. On the three
    models with fetches of 100 bytes, of 200 bytes and a failed fetch, the
    summary reads 2/3, 300.0 B and 1 model(s) failed. *)
Theorem C5_summary_report (hf : fetch_service) (w : world) :
  match main_loop hf 3 1 MODELS (0, 0) (printed w (banner 3)) with
  | Done (c, tot) w1 =>
      exists text,
        format_file_size tot = Some text /\
        main hf w = Done tt (printed w1 (summary_lines 3 c text))
  | Raised e w1 => main hf w = Raised e w1
  end /\
  (forall c text,
     summary_lines 3 c text
     = [ nl +:+ str_repeat "=" 50;
         "📊 Download Summary";
         str_repeat "=" 50;
         "✓ Successfully downloaded: " +:+ str_int c +:+ "/3 models";
         "📦 Total size: " +:+ text ]
       ++ (if c =? 3 then
             [ nl +:+ "🎉 All models downloaded successfully!";
               nl +:+ "Next steps:";
               "1. Copy models to app/src/main/assets/models/";
               "2. Build the project: ./gradlew assembleDebug";
               "3. Install on device: adb install app/build/outputs/apk/debug/app-debug.apk" ]
           else
             [ nl +:+ "⚠️  " +:+ str_int (3 - c) +:+ " model(s) failed to download";
               "Please check your internet connection and try again" ])) /\
  result_of (main_loop fetch_two_of_three 3 1 MODELS (0, 0)
               (printed world0 (banner 3))) = Some (2, 300) /\
  (let out := w_out (world_of (main fetch_two_of_three world0)) in
   drop (length out - 7) out
   = [ nl +:+ "==================================================";
       "📊 Download Summary";
       "==================================================";
       "✓ Successfully downloaded: 2/3 models";
       "📦 Total size: 300.0 B";
       nl +:+ "⚠️  1 model(s) failed to download";
       "Please check your internet connection and try again" ]).
Proof.
  split; [| split; [| split]].
  - unfold main. rewrite main_on_run. change (Z.of_nat (length MODELS)) with 3.
    destruct (main_loop hf 3 1 MODELS (0, 0) (printed w (banner 3)))
      as [[c tot] w1 | e w1] eqn:Hl; [| reflexivity].
    pose proof (main_loop_total_bound hf _ _ _ _ _ _ _ _ _ Hl) as Hub.
    pose proof (main_loop_counters hf _ _ _ _ _ _ _ _ _ Hl) as [_ Hlb].
    destruct (format_file_size_some tot) as [text Ht].
    { change (Z.of_nat (length MODELS)) with 3 in Hub.
      unfold float_int_bound. lia. }
    exists text. rewrite Ht. split; reflexivity.
  - intros c text. reflexivity.
  - vm_refl.
  - cbv zeta. vm_refl.
Qed.

(* ===================================================================== *)
(** * Part IV: the size formatting *)
(* ===================================================================== *)

Lemma str_append_assoc (a b c : string) : (a +:+ b) +:+ c = a +:+ (b +:+ c).
Proof.
  induction a as [| x a IH]; [reflexivity |].
  change (String x ((a +:+ b) +:+ c) = String x (a +:+ (b +:+ c))).
  f_equal. exact IH.
Qed.

(** C4 (as amended). [format_file_size] maps 0 to "0 B", 1536 to
    "1.5 KB" and 1048576 to "1.0 MB"; every size from [1024^4] up to the
    largest integer that converts to a [float] (all below
    [2^1024 - 2^970]) is rendered in TB: the text is the [float] nearest to
    the size with its exponent lowered by 40, that is divided by 1024 four
    times, written with one digit after the point; below [2^53], where the
    conversion is exact, it is the size over [1024^4] rounded to the
    nearest tenth, ties to even. *)
Theorem C4_format_file_size_values :
  format_file_size 0 = Some "0 B" /\
  format_file_size 1536 = Some "1.5 KB" /\
  format_file_size 1048576 = Some "1.0 MB" /\
  (forall n : Z,
     1024 ^ 4 <= n < float_int_bound ->
     exists m e,
       float_of_int n = Some (S754_finite false m e) /\
       format_file_size n = Some (one_decimal (tenths m (e - 40)) +:+ " TB") /\
       (n < 2 ^ 53 ->
        format_file_size n
        = Some (one_decimal (div_half_even (10 * n) (1024 ^ 4)) +:+ " TB"))).
Proof.
  split; [vm_refl |]. split; [vm_refl |]. split; [vm_refl |].
  intros n [Hlo Hhi].
  assert (Hn : 0 < n < float_int_bound) by lia.
  destruct (float_of_int_pos n Hn) as (m & e & Hf & Hm & He & Hex).
  assert (Hu : unit_index n = 4).
  { destruct (unit_index_cases n ltac:(lia))
      as [[Hr Hu] | [[Hr Hu] | [[Hr Hu] | [[Hr Hu] | [Hr Hu]]]]]; lia. }
  exists m, e. split; [exact Hf |]. split.
  - rewrite (format_file_size_float n m e Hn Hf), Hu. reflexivity.
  - intros Hs. rewrite (format_file_size_exact n ltac:(lia)), Hu. reflexivity.
Qed.

(** A size of C4: 1234.5 TB. *)
Lemma C4_witness :
  1024 ^ 4 <= 1357359409700864 < float_int_bound /\
  format_file_size 1357359409700864 = Some "1234.5 TB".
Proof.
  assert (H : 1024 ^ 4 <= 1357359409700864 < float_int_bound)
    by (unfold float_int_bound; lia).
  split; [exact H |].
  destruct C4_format_file_size_values as (_ & _ & _ & Hall).
  destruct (Hall 1357359409700864 H) as (m & e & _ & _ & Hex).
  rewrite Hex by lia. vm_refl.
Defined.

(** C4 as stated fails: [2^1024] is at least [1024^4], and
    [size_bytes /= 1024.0] raises [OverflowError] on it; so does the
    least integer that rounds to [2^1024], while the integer just below
    is rendered in TB. *)
Lemma C4_counterexample :
  1024 ^ 4 <= 2 ^ 1024 /\
  format_file_size (2 ^ 1024) = None /\
  format_file_size float_int_bound = None /\
  exists digits,
    format_file_size (float_int_bound - 1) = Some (digits +:+ " TB").
Proof.
  split; [lia |]. split; [vm_refl |]. split; [vm_refl |].
  assert (Hn : 0 < float_int_bound - 1 < float_int_bound)
    by (unfold float_int_bound; lia).
  destruct (float_of_int_pos _ Hn) as (m & e & Hf & _).
  rewrite (format_file_size_float _ m e Hn Hf).
  assert (Hu : unit_index (float_int_bound - 1) = 4) by vm_refl.
  rewrite Hu. eexists. reflexivity.
Qed.

(** C10. Each power of 1024 from [1024^1] to [1024^4] is rendered as
    "1.0" with the next unit; the comparison with 1024 is strict: 1023
    is "1023.0 B", every size below 1024 is rendered in B as that number
    of bytes, and every size from 1024 on (that converts to a [float]) is
    rendered in a larger unit. *)
Theorem C10_powers_of_1024_promote :
  format_file_size 1024 = Some "1.0 KB" /\
  format_file_size (1024 ^ 2) = Some "1.0 MB" /\
  format_file_size (1024 ^ 3) = Some "1.0 GB" /\
  format_file_size (1024 ^ 4) = Some "1.0 TB" /\
  format_file_size 1023 = Some "1023.0 B" /\
  (forall n : Z,
     0 < n < 1024 -> format_file_size n = Some (str_nat n +:+ ".0 B")) /\
  (forall n : Z,
     1024 <= n < float_int_bound ->
     exists digits unit,
       format_file_size n = Some (digits +:+ " " +:+ unit) /\
       (unit = "KB" \/ unit = "MB" \/ unit = "GB" \/ unit = "TB")%string).
Proof.
  split; [vm_refl |]. split; [vm_refl |]. split; [vm_refl |].
  split; [vm_refl |]. split; [vm_refl |]. split.
  - intros n Hn.
    rewrite (format_file_size_exact n ltac:(lia)).
    assert (Hu : unit_index n = 0).
    { destruct (unit_index_cases n ltac:(lia))
        as [[Hr Hu] | [[Hr Hu] | [[Hr Hu] | [[Hr Hu] | [Hr Hu]]]]]; lia. }
    rewrite Hu. change (1024 ^ 0) with 1. unfold div_half_even, one_decimal.
    rewrite Z.div_1_r, Z.mod_1_r. change (2 * 0 ?= 1) with Lt. cbv iota.
    replace (10 * n / 10) with n by (apply Z.div_unique_exact; lia).
    replace ((10 * n) `mod` 10) with 0
      by (symmetry; rewrite Z.mul_comm; apply Z.mod_mul; lia).
    change (unit_name 0) with "B"%string. change (str_nat 0) with "0"%string.
    rewrite !str_append_assoc. reflexivity.
  - intros n Hn.
    assert (Hn' : 0 < n < float_int_bound) by lia.
    destruct (float_of_int_pos n Hn') as (m & e & Hf & _).
    rewrite (format_file_size_float n m e Hn' Hf).
    eexists _, _. split; [reflexivity |].
    destruct (unit_index_cases n ltac:(lia))
      as [[Hr Hu] | [[Hr Hu] | [[Hr Hu] | [[Hr Hu] | [Hr Hu]]]]];
      rewrite Hu; cbn; try lia; auto.
Qed.

(* ===================================================================== *)
(** * Part V: the listing script *)
(* ===================================================================== *)

Lemma str_length_append (a b : string) :
  String.length (a +:+ b) = (String.length a + String.length b)%nat.
Proof.
  induction a as [| x a IH]; [reflexivity |].
  change (S (String.length (a +:+ b)) = S (String.length a + String.length b)).
  by rewrite IH.
Qed.

Lemma substring_whole (s : string) : String.substring 0 (String.length s) s = s.
Proof.
  induction s as [| x s IH]; [reflexivity |].
  cbn [String.length String.substring]. by rewrite IH.
Qed.

Lemma substring_skip (a b : string) (k : nat) :
  String.substring (String.length a) k (a +:+ b) = String.substring 0 k b.
Proof.
  induction a as [| x a IH]; [reflexivity |].
  change (String.substring (S (String.length a)) k (String x (a +:+ b))
          = String.substring 0 k b).
  cbn [String.substring]. exact IH.
Qed.

Lemma substring_split (s : string) (n : nat) :
  (n <= String.length s)%nat ->
  String.substring 0 n s +:+ String.substring n (String.length s - n) s = s.
Proof.
  revert n. induction s as [| x s IH]; intros n Hn.
  - cbn in Hn. replace n with 0%nat by lia. reflexivity.
  - destruct n as [| n].
    + cbn [String.substring String.length Nat.sub].
      change ("" +:+ String x (String.substring 0 (String.length s) s))
        with (String x (String.substring 0 (String.length s) s)).
      by rewrite substring_whole.
    + cbn [String.length] in Hn |- *. cbn [String.substring Nat.sub].
      change (String x (String.substring 0 n s
                        +:+ String.substring n (String.length s - n) s)
              = String x s).
      f_equal. apply IH. lia.
Qed.

(** [endswith] is the suffix relation. *)
Lemma endswith_spec (s suffix : string) :
  endswith s suffix = true <-> exists stem, s = stem +:+ suffix.
Proof.
  unfold endswith. split.
  - intros H. apply andb_true_iff in H as [Hle Heq].
    apply Nat.leb_le in Hle. apply String.eqb_eq in Heq.
    exists (String.substring 0 (String.length s - String.length suffix) s).
    pose proof (substring_split s (String.length s - String.length suffix)
                  ltac:(lia)) as Hs.
    replace (String.length s - (String.length s - String.length suffix))%nat
      with (String.length suffix) in Hs by lia.
    rewrite Heq in Hs. symmetry. exact Hs.
  - intros [stem ->]. rewrite str_length_append. apply andb_true_iff. split.
    + apply Nat.leb_le. lia.
    + replace (String.length stem + String.length suffix - String.length suffix)%nat
        with (String.length stem) by lia.
      rewrite substring_skip, substring_whole. apply String.eqb_refl.
Qed.

Section Listing.

Variable list_repo_files : listing_service.

Lemma print_gguf_run (files : list string) (w : world) :
  print_gguf files w
  = Done tt (printed w (map (fun file => "  ✓ " +:+ file)
                          (List.filter (fun file => endswith file ".gguf") files))).
Proof.
  revert w. induction files as [| file files IH]; intros w.
  - unfold printed. cbn. rewrite app_nil_r. destruct w; reflexivity.
  - cbn [print_gguf List.filter]. unfold bind.
    destruct (endswith file ".gguf").
    + unfold print at 1. rewrite IH. unfold printed.
      cbn [w_fs w_out w_fetches map]. rewrite <- app_assoc. reflexivity.
    + unfold ret at 1. apply IH.
Qed.

Lemma list_repo_listed (repo : string) (files : list string) (w : world) :
  list_repo_files repo = Listed files ->
  list_repo list_repo_files repo w
  = Done tt
      (printed w
         ((nl +:+ "📁 Files in " +:+ repo +:+ ":")
          :: map (fun file => "  ✓ " +:+ file)
               (List.filter (fun file => endswith file ".gguf") files))).
Proof.
  intros Hl. unfold list_repo, call_list_repo_files. run. rewrite Hl.
  rewrite print_gguf_run. unfold printed. cbn [w_fs w_out w_fetches].
  rewrite <- app_assoc. reflexivity.
Qed.

Lemma list_repo_error (repo e : string) (w : world) :
  list_repo_files repo = ListingError e ->
  list_repo list_repo_files repo w
  = Done tt (printed w [ nl +:+ "📁 Files in " +:+ repo +:+ ":";
                         "  ❌ Error: " +:+ e ]).
Proof.
  intros Hl. unfold list_repo, call_list_repo_files. run. rewrite Hl.
  finish.
Qed.

Lemma list_repo_aborted (repo class : string) (w : world) :
  list_repo_files repo = ListingAbort class ->
  list_repo list_repo_files repo w
  = Raised (BaseException class "")
      (printed w [ nl +:+ "📁 Files in " +:+ repo +:+ ":" ]).
Proof.
  intros Hl. unfold list_repo, call_list_repo_files. run. rewrite Hl.
  finish.
Qed.

End Listing.

(** C6. For a source whose listing is [files], the script prints the
    header of the source and then one line per filename of [files] that
    ends with ".gguf", in order, and nothing else; a filename ends with
    ".gguf" exactly when it is some text followed by these five
    characters, so the match is case-sensitive. Of "a.gguf", "b.txt" and
    "c.GGUF" only "a.gguf" is reported. *)
Theorem C6_listing_reports_gguf_suffix :
  (forall (svc : listing_service) (repo : string) (files : list string)
          (w : world),
     svc repo = Listed files ->
     list_repo svc repo w
     = Done tt
         (printed w
            ((nl +:+ "📁 Files in " +:+ repo +:+ ":")
             :: map (fun file => "  ✓ " +:+ file)
                  (List.filter (fun file => endswith file ".gguf") files)))) /\
  (forall file : string,
     endswith file ".gguf" = true <-> exists stem, file = stem +:+ ".gguf") /\
  List.filter (fun file => endswith file ".gguf") ["a.gguf"; "b.txt"; "c.GGUF"]%string
    = ["a.gguf"%string] /\
  w_out (world_of (list_repo (fun _ => Listed ["a.gguf"; "b.txt"; "c.GGUF"]%string)
                     "some/repo" world0))
    = [ nl +:+ "📁 Files in some/repo:"; "  ✓ a.gguf" ].
Proof.
  split; [| split; [| split]].
  - intros svc repo files w. apply list_repo_listed.
  - intros file. apply endswith_spec.
  - vm_refl.
  - vm_refl.
Qed.



(* ===================================================================== *)
(** * Part VI: further properties of the scripts *)
(* ===================================================================== *)

(** ** [format_file_size] *)

(** [float(n)] overflows from [2^1024 - 2^970] on. *)
Lemma float_of_int_overflow (n : Z) :
  float_int_bound <= n -> float_of_int n = None.
Proof.
  unfold float_int_bound. intros Hn.
  destruct n as [| p | p]; try lia.
  pose proof (Z.log2_spec (Z.pos p) ltac:(lia)) as [Hlo Hhi].
  assert (Hd1 : 1023 <= Z.log2 (Z.pos p)) by (apply Z.log2_le_pow2; lia).
  set (d := Z.log2 (Z.pos p)) in *.
  unfold float_of_int, binary_normalize, binary_round.
  rewrite digits2_log2. fold d.
  rewrite fexp_normal by lia.
  assert (Hsh : shl_align p 0 (d + 1 + 0 - 53) = (p, 0)).
  { unfold shl_align. destruct (d + 1 + 0 - 53 - 0) eqn:Hk'; try lia; reflexivity. }
  rewrite Hsh. unfold binary_round_aux.
  destruct (d - 52) as [| k | k] eqn:Hk; try lia.
  assert (Hfst : shr_fexp prec emax (Z.pos p) 0 loc_Exact
                 = (SpecFloat.iter_pos shr_1 k (Build_shr_record (Z.pos p) false false),
                    d - 52)).
  { unfold shr_fexp. cbn [Zdigits2]. rewrite digits2_log2. fold d.
    rewrite fexp_normal by lia.
    replace (d + 1 + 0 - 53 - 0) with (Z.pos k) by lia.
    cbn [shr shr_record_of_loc]. f_equal. lia. }
  rewrite Hfst.
  pose proof (iter_shr_1_m k (Build_shr_record (Z.pos p) false false)
                ltac:(cbn [shr_m]; lia)) as Hm1.
  pose proof (iter_shr_1_r k (Build_shr_record (Z.pos p) false false)
                ltac:(cbn [shr_m]; lia)) as Hr1.
  cbn [shr_m] in Hm1, Hr1.
  destruct (SpecFloat.iter_pos shr_1 k (Build_shr_record (Z.pos p) false false))
    as [m1 r1 s1].
  cbn [shr_m shr_r] in Hm1, Hr1 |- *.
  assert (Hk0 : 0 < 2 ^ Z.pos k) by (apply Z.pow_pos_nonneg; lia).
  assert (Hm1lo : 2 ^ 52 <= m1).
  { subst m1. apply Z.div_le_lower_bound; [lia |].
    rewrite <- Z.pow_add_r by lia. replace (Z.pos k + 52) with d by lia. lia. }
  assert (Hm1hi : m1 < 2 ^ 53).
  { subst m1. apply Z.div_lt_upper_bound; [lia |].
    rewrite <- Z.pow_add_r by lia. replace (Z.pos k + 53) with (Z.succ d) by lia. lia. }
  (* when [d = 1023] the mantissa is all ones and the round bit is set *)
  assert (Hup : d = 1023 ->
                round_nearest_even m1 (loc_of_shr_record (Build_shr_record m1 r1 s1))
                = 2 ^ 53).
  { intros Hd. assert (Hkk : Z.pos k = 971) by lia. rewrite Hkk in *.
    assert (Hm : m1 = 2 ^ 53 - 1).
    { assert (2 ^ 53 - 1 <= m1); [| lia]. subst m1.
      apply Z.div_le_lower_bound; [lia |].
      assert ((2 ^ 53 - 1) * 2 ^ 971 = 2 ^ 1024 - 2 ^ 971) by reflexivity.
      assert (2 ^ 970 < 2 ^ 971) by (apply Z.pow_lt_mono_r; lia). lia. }
    assert (Hr : r1 = true).
    { rewrite Hr1. change (971 - 1) with 970. apply Z.testbit_true; [lia |].
      assert (Hq : Z.pos p / 2 ^ 970 = 2 ^ 54 - 1).
      { symmetry. apply Z.div_unique with (Z.pos p - (2 ^ 54 - 1) * 2 ^ 970).
        - left. assert ((2 ^ 54 - 1) * 2 ^ 970 = 2 ^ 1024 - 2 ^ 970) by reflexivity.
          assert (2 ^ 1024 = 2 ^ Z.succ d) by (rewrite Hd; reflexivity). lia.
        - lia. }
      rewrite Hq. reflexivity. }
    rewrite Hr, Hm. destruct s1; reflexivity. }
  destruct (round_nearest_even_cases m1
              (loc_of_shr_record (Build_shr_record m1 r1 s1))) as [Hrd | Hrd].
  - assert (Hd : 1024 <= d) by (destruct (Z.eq_dec d 1023) as [E |]; [specialize (Hup E) |]; lia).
    rewrite Hrd. destruct m1 as [| m | m]; try lia.
    rewrite shr_fexp_53 by (done || lia). cbn [shr_record_of_loc shr_m].
    replace (d - 52 <=? emax - prec) with false by (unfold emax, prec; lia).
    reflexivity.
  - rewrite Hrd. destruct (Z.eq_dec (m1 + 1) (2 ^ 53)) as [Heq | Hne].
    + rewrite Heq. change (2 ^ 53) with (Z.pos 4503599627370496~0).
      rewrite shr_fexp_54 by (unfold mant53; lia). cbn [shr_m].
      replace (d - 52 + 1 <=? emax - prec) with false by (unfold emax, prec; lia).
      reflexivity.
    + assert (Hd : 1024 <= d)
        by (destruct (Z.eq_dec d 1023) as [E |]; [specialize (Hup E) |]; lia).
      destruct (m1 + 1) as [| m | m] eqn:Hm; try lia.
      rewrite shr_fexp_53 by (unfold mant53; lia). cbn [shr_record_of_loc shr_m].
      replace (d - 52 <=? emax - prec) with false by (unfold emax, prec; lia).
      reflexivity.
Qed.

(** X1. [format_file_size] raises [OverflowError] exactly on the sizes
    from [2^1024 - 2^970] on: below, it returns a text. *)
Theorem format_file_size_overflow_iff (n : Z) :
  0 <= n ->
  (format_file_size n = None <-> float_int_bound <= n).
Proof.
  intros Hn0. split.
  - intros Hnone. destruct (Z.lt_ge_cases n float_int_bound) as [Hlt | Hge];
      [| exact Hge].
    destruct (format_file_size_some n ltac:(lia)) as [s Hs]. congruence.
  - intros Hge. unfold format_file_size.
    assert (Hbig : 1024 <= n) by (unfold float_int_bound in Hge; lia).
    replace (n =? 0) with false by lia. cbn [format_loop lt_1024].
    replace (n <? 1024) with false by lia.
    unfold div_1024, to_float. rewrite (float_of_int_overflow n Hge). reflexivity.
Qed.

Lemma format_file_size_overflow_iff_witness :
  0 <= 2 ^ 2000 /\ format_file_size (2 ^ 2000) = None.
Proof.
  assert (H : 0 <= 2 ^ 2000) by lia.
  split; [exact H |].
  apply (format_file_size_overflow_iff (2 ^ 2000) H).
  unfold float_int_bound. lia.
Defined.

Lemma div_half_even_nearest (a b : Z) :
  0 < b -> 2 * Z.abs (a - div_half_even a b * b) <= b.
Proof.
  intros Hb. unfold div_half_even.
  pose proof (Z.div_mod a b ltac:(lia)) as Hdm.
  pose proof (Z.mod_pos_bound a b Hb) as Hmb.
  destruct (Z.compare_spec (2 * (a mod b)) b) as [He | Hl | Hg].
  - destruct (Z.even (a / b)); nia.
  - nia.
  - nia.
Qed.

(** X2. Below [2^53] bytes the text of [format_file_size] is exact
    integer arithmetic: with [k] the number of whole factors of 1024 in
    the size (at most four), the number printed is the count of tenths
    nearest to size / 1024^k, ties to even, so it is off by at most half a
    tenth of the unit, and the unit is the [k]-th of B, KB, MB, GB, TB. *)
Theorem format_file_size_nearest_tenth (n : Z) :
  0 < n < 2 ^ 53 ->
  exists q : Z,
    format_file_size n
      = Some (one_decimal q +:+ " " +:+ unit_name (unit_index n)) /\
    q = div_half_even (10 * n) (1024 ^ unit_index n) /\
    2 * Z.abs (10 * n - q * 1024 ^ unit_index n) <= 1024 ^ unit_index n /\
    1024 ^ unit_index n <= n /\
    (unit_index n < 4 -> n < 1024 ^ (unit_index n + 1)).
Proof.
  intros Hn. exists (div_half_even (10 * n) (1024 ^ unit_index n)).
  split; [apply format_file_size_exact, Hn |]. split; [reflexivity |].
  destruct (unit_index_cases n ltac:(lia))
    as [[Hr Hu] | [[Hr Hu] | [[Hr Hu] | [[Hr Hu] | [Hr Hu]]]]]; rewrite Hu.
  all: split; [apply div_half_even_nearest; lia |].
  all: split; [| intros Hlt]; try lia.
  all: try (change (1024 ^ (0 + 1)) with (2 ^ 10); lia).
  all: try (change (1024 ^ (1 + 1)) with (2 ^ 20); change (1024 ^ 1) with (2 ^ 10); lia).
  all: try (change (1024 ^ (2 + 1)) with (2 ^ 30); change (1024 ^ 2) with (2 ^ 20); lia).
  all: try (change (1024 ^ (3 + 1)) with (2 ^ 40); change (1024 ^ 3) with (2 ^ 30); lia).
  all: try (change (1024 ^ 1) with (2 ^ 10); lia).
  all: try (change (1024 ^ 2) with (2 ^ 20); lia).
  all: try (change (1024 ^ 3) with (2 ^ 30); lia).
  all: try (change (1024 ^ 4) with (2 ^ 40); lia).
Qed.

Lemma format_file_size_nearest_tenth_witness :
  0 < 1536 < 2 ^ 53 /\ format_file_size 1536 = Some "1.5 KB".
Proof.
  assert (H : 0 < 1536 < 2 ^ 53) by lia.
  split; [exact H |].
  destruct (format_file_size_nearest_tenth 1536 H) as (q & Hf & -> & _).
  rewrite Hf. vm_refl.
Defined.

(** X3. A size just below the next unit is not promoted: from half a
    tenth below [1024^(k+1)] on (for KB, MB and GB), [format_file_size]
    prints "1024.0" with the smaller unit. *)
Theorem format_file_size_rounds_to_1024 (k n : Z) :
  1 <= k <= 3 ->
  20479 * 1024 ^ k <= 20 * n ->
  n < 1024 ^ (k + 1) ->
  format_file_size n = Some ("1024.0 " +:+ unit_name k).
Proof.
  intros Hk Hlo Hhi.
  assert (Hpk : 1024 ^ (k + 1) = 1024 * 1024 ^ k)
    by (rewrite Z.pow_add_r by lia; lia).
  assert (Hk1 : 1024 <= 1024 ^ k).
  { assert (Hc : k = 1 \/ k = 2 \/ k = 3) by lia.
    destruct Hc as [-> | [-> | ->]]; vm_compute; discriminate. }
  assert (Hk3 : 1024 ^ k <= 2 ^ 30).
  { assert (Hc : k = 1 \/ k = 2 \/ k = 3) by lia.
    destruct Hc as [-> | [-> | ->]]; vm_compute; discriminate. }
  assert (Hn : 0 < n < 2 ^ 53) by lia.
  assert (Hu : unit_index n = k).
  { destruct (unit_index_cases n ltac:(lia))
      as [[Hr Hu] | [[Hr Hu] | [[Hr Hu] | [[Hr Hu] | [Hr Hu]]]]];
      assert (Hc : k = 1 \/ k = 2 \/ k = 3) by lia;
      destruct Hc as [-> | [-> | ->]];
      change (1024 ^ 1) with (2 ^ 10) in *; change (1024 ^ 2) with (2 ^ 20) in *;
      change (1024 ^ 3) with (2 ^ 30) in *;
      change (1024 ^ (1 + 1)) with (2 ^ 20) in *;
      change (1024 ^ (2 + 1)) with (2 ^ 30) in *;
      change (1024 ^ (3 + 1)) with (2 ^ 40) in *; lia. }
  rewrite (format_file_size_exact n Hn), Hu.
  set (b := 1024 ^ k) in *.
  assert (Hq : div_half_even (10 * n) b = 10240).
  { unfold div_half_even.
    pose proof (Z.div_mod (10 * n) b ltac:(lia)) as Hdm.
    pose proof (Z.mod_pos_bound (10 * n) b ltac:(lia)) as Hmb.
    assert (Hq' : (10 * n) / b = 10239).
    { symmetry. apply Z.div_unique with (10 * n - b * 10239); lia. }
    rewrite Hq' in *.
    destruct (Z.compare_spec (2 * ((10 * n) mod b)) b) as [He | Hl | Hg].
    - reflexivity.
    - lia.
    - reflexivity. }
  rewrite Hq. reflexivity.
Qed.

Lemma format_file_size_rounds_to_1024_witness :
  1 <= 1 <= 3 /\ 20479 * 1024 ^ 1 <= 20 * 1048575 /\ 1048575 < 1024 ^ (1 + 1) /\
  format_file_size 1048575 = Some "1024.0 KB".
Proof.
  assert (H1 : 1 <= 1 <= 3) by lia.
  assert (H2 : 20479 * 1024 ^ 1 <= 20 * 1048575) by lia.
  assert (H3 : 1048575 < 1024 ^ (1 + 1)) by lia.
  split; [exact H1 |]. split; [exact H2 |]. split; [exact H3 |].
  apply (format_file_size_rounds_to_1024 1 1048575 H1 H2 H3).
Defined.

(** ** [download_model] and [main] *)

(** X4. Once the directory of a task is ensured, [download_model] keeps
    the lines already printed and does one of these. When the target is
    there it answers [True] without a fetch, on the filesystem left by the
    creation of the directory. Otherwise it makes exactly one call of the
    fetch service, with the task's own request, and leaves the filesystem
    the service left; it answers [True] exactly when the service returned
    a path that exists afterwards, and [False] when the path does not
    exist or the service raised an [Exception]; what the service raises
    outside [Exception] ([KeyboardInterrupt], [SystemExit]) is not caught
    and ends [download_model]. Nothing else is raised. *)
Theorem download_model_outcome
    (hf : fetch_service) (t : model_info) (w : world) (fs1 : filesystem) :
  mkdir_p (local_dir t) (w_fs w) = Some fs1 ->
  (exists lines, w_out (world_of (download_model hf t w)) = w_out w ++ lines) /\
  match stat fs1 (target_path t) with
  | Some _ =>
      result_of (download_model hf t w) = Some true /\
      w_fs (world_of (download_model hf t w)) = fs1 /\
      w_fetches (world_of (download_model hf t w)) = w_fetches w
  | None =>
      w_fetches (world_of (download_model hf t w)) = w_fetches w ++ [request_of t] /\
      w_fs (world_of (download_model hf t w))
        = snd (hf (repo_id t) (filename t) (local_dir t) fs1) /\
      match fst (hf (repo_id t) (filename t) (local_dir t) fs1) with
      | Fetched path =>
          result_of (download_model hf t w)
          = Some (bool_decide
                    (is_Some (stat (snd (hf (repo_id t) (filename t) (local_dir t) fs1))
                                path)))
      | FetchError _ => result_of (download_model hf t w) = Some false
      | FetchAbort class =>
          download_model hf t w
          = Raised (BaseException class "") (world_of (download_model hf t w))
      end
  end.
Proof. apply download_model_cases. Qed.

Lemma download_model_outcome_witness :
  mkdir_p (local_dir model_2bit) (w_fs world0) = Some fs_2bit_dirs /\
  result_of (download_model fetch_stores_nothing model_2bit world0) = Some false /\
  raised_by (download_model fetch_interrupted model_2bit world0)
    = Some "KeyboardInterrupt"%string.
Proof.
  assert (H1 : mkdir_p (local_dir model_2bit) (w_fs world0) = Some fs_2bit_dirs)
    by reflexivity.
  assert (Hst : stat fs_2bit_dirs (target_path model_2bit) = None) by reflexivity.
  split; [exact H1 |]. split.
  - destruct (download_model_outcome fetch_stores_nothing model_2bit world0 _ H1)
      as [_ Hcase].
    rewrite Hst in Hcase. destruct Hcase as (_ & _ & Hres).
    cbn [fetch_stores_nothing fst snd] in Hres. rewrite Hres. reflexivity.
  - destruct (download_model_outcome fetch_interrupted model_2bit world0 _ H1)
      as [_ Hcase].
    rewrite Hst in Hcase. destruct Hcase as (_ & _ & Hres).
    cbn [fetch_interrupted fst snd] in Hres. rewrite Hres. reflexivity.
Defined.

(** X5. No retries and nothing fetched that was not asked for: the calls
    of the fetch service made by the loop of [main], however it ends, are
    appended to the calls made before and form a sublist of the requests
    of the tasks, in the order of the list, so at most one call per
    task. *)
Theorem main_loop_fetches_sublist
    (hf : fetch_service) (count : Z) (ts : list model_info) (i : Z)
    (acc : Z * Z) (w : world) :
  exists l,
    w_fetches (world_of (main_loop hf count i ts acc w)) = w_fetches w ++ l /\
    sublist l (map request_of ts) /\
    (length l <= length ts)%nat.
Proof.
  revert i acc w. induction ts as [| t ts IH]; intros i acc w.
  - exists []. cbn. rewrite app_nil_r. split; [reflexivity |].
    split; [constructor | lia].
  - cbn [main_loop]. unfold bind.
    destruct (main_step_fetches hf count i t acc w) as (l1 & Hl1 & Hcase).
    destruct (main_step hf count i t acc w) as [acc1 w1 | e w1] eqn:Hs;
      cbn [world_of] in Hl1.
    + destruct (IH (i + 1) acc1 w1) as (l2 & Hl2 & Hsub & Hlen).
      exists (l1 ++ l2). rewrite Hl2, Hl1, app_assoc.
      split; [reflexivity |]. cbn [map length].
      destruct Hcase as [-> | ->]; cbn [app length].
      * split; [by apply sublist_cons | lia].
      * split; [by apply sublist_skip | lia].
    + exists l1. cbn [world_of]. split; [exact Hl1 |]. cbn [map length].
      destruct Hcase as [-> | ->]; cbn [length].
      * split; [apply sublist_nil_l | lia].
      * split; [apply sublist_skip, sublist_nil_l | lia].
Qed.



(** ** [create_directory] *)





(** X8. A tree-shaped filesystem stays tree-shaped when a directory is
    created with its parents. *)
Theorem mkdir_p_keeps_tree (path : string) (fs fs' : filesystem) :
  fs_tree fs -> mkdir_p path fs = Some fs' -> fs_tree fs'.
Proof.
  intros Htree [(_ & _ & _ & Hext) _]%mkdir_p_extends. by apply Hext.
Qed.

Lemma mkdir_p_keeps_tree_witness :
  fs_tree fs0 /\
  mkdir_p "models/2bit" fs0 = Some fs_2bit_dirs /\
  fs_tree fs_2bit_dirs.
Proof.
  assert (H0 : fs_tree fs0).
  { intros p c [n Hn]. cbn in Hn. rewrite lookup_empty in Hn. discriminate. }
  assert (H1 : mkdir_p "models/2bit" fs0 = Some fs_2bit_dirs) by reflexivity.
  split; [exact H0 |]. split; [exact H1 |].
  exact (mkdir_p_keeps_tree "models/2bit" fs0 _ H0 H1).
Defined.

(** ** The target path *)

Lemma split_slash_app (cur a b : string) :
  split_slash cur (a +:+ String "/" b) = split_slash cur a ++ split_slash "" b.
Proof.
  revert cur. induction a as [| x a IH]; intros cur.
  - reflexivity.
  - change (String x a +:+ String "/" b) with (String x (a +:+ String "/" b)).
    cbn [split_slash]. destruct (Ascii.eqb x "/").
    + rewrite IH. reflexivity.
    + apply IH.
Qed.

Lemma startswith_app (a b p : string) :
  a <> ""%string -> String.length p = 1%nat ->
  startswith (a +:+ b) p = startswith a p.
Proof.
  intros Ha Hp. destruct a as [| x a]; [done |].
  destruct p as [| y [| z p]]; try discriminate.
  change (String x a +:+ b) with (String x (a +:+ b)).
  unfold startswith. cbn [String.prefix].
  destruct (ascii_dec y x); [| reflexivity].
  destruct (a +:+ b), a; reflexivity.
Qed.

Lemma split_slash_cons (cur s : string) :
  exists c rest, split_slash cur s = c :: rest.
Proof.
  revert cur. induction s as [| x s IH]; intros cur; cbn [split_slash].
  - eauto.
  - destruct (Ascii.eqb x "/"); [eauto | apply IH].
Qed.

(** For a relative filename the way to the target goes through the
    directory: where the target exists, the directory is a directory. *)
Lemma target_in_dir (fs : filesystem) (d f : string) (n : node) :
  startswith f "/" = false ->
  stat fs (os_path_join d f) = Some n ->
  is_dir fs (fst (pure_path d)) (snd (pure_path d)) = true.
Proof.
  intros Hf (Hne & loc & Hw & Hs)%stat_Some. revert Hne Hw.
  unfold os_path_join. rewrite Hf.
  assert (Hgo : forall stem,
             d <> ""%string ->
             List.filter is_name (split_slash "" d)
             = List.filter is_name (split_slash "" stem) ->
             walk fs (start fs (startswith d "/"))
               (split_slash "" stem ++ split_slash "" f) = inr loc ->
             is_dir fs (fst (pure_path d)) (snd (pure_path d)) = true).
  { intros stem Hd Hnames Hw. rewrite walk_app in Hw.
    destruct (walk fs (start fs (startswith d "/")) (split_slash "" stem))
      as [e | loc1] eqn:Hw1; [discriminate |].
    destruct (split_slash_cons "" f) as (c & rest & Hsplit).
    rewrite Hsplit in Hw. cbn [walk] in Hw.
    destruct (fs_stat fs loc1) as [[sz | sz] |] eqn:Hs1; try discriminate.
    apply is_dir_true. exists loc1, sz. split; [| exact Hs1].
    cbn [pure_path fst snd]. rewrite Hnames. by apply walk_filter. }
  destruct (String.eqb_spec d "") as [-> | Hd]; cbn [orb].
  - intros _ _. apply is_dir_true. exists (fs_cwd fs), new_dir_size.
    split; [reflexivity | apply (fs_stat_start fs false)].
  - destruct (endswith d "/") eqn:He.
    + apply endswith_spec in He as [stem ->]. intros _.
      rewrite str_append_assoc. change ("/" +:+ f) with (String "/" f).
      rewrite <- (str_append_assoc stem "/" f) at 1.
      rewrite (startswith_app (stem +:+ "/") f "/" Hd eq_refl).
      rewrite split_slash_app. apply Hgo; [exact Hd |].
      change (stem +:+ "/") with (stem +:+ String "/" "").
      rewrite split_slash_app, List.filter_app.
      change (List.filter is_name (split_slash "" "")) with (@nil string).
      by rewrite app_nil_r.
    + intros _. change (d +:+ "/" +:+ f) with (d +:+ String "/" f).
      rewrite (startswith_app d (String "/" f) "/" Hd eq_refl).
      rewrite split_slash_app. by apply Hgo.
Qed.

(** A round on a task whose target is there, the directory being
    ensured. *)
Lemma main_step_existing
    (hf : fetch_service) (count i : Z) (t : model_info) (c tot : Z)
    (w : world) (fs1 : filesystem) (n : node) :
  mkdir_p (local_dir t) (w_fs w) = Some fs1 ->
  stat (w_fs w) (target_path t) = Some n ->
  exists text,
    format_file_size (off_val (node_size n)) = Some text /\
    main_step hf count i t (c, tot) w
    = Done (c + 1, tot + off_val (node_size n))
        (mk_world fs1
           (w_out w ++ round_line count i t :: announce t
              ++ [ "✓ File already exists: " +:+ target_path t;
                   "  Size: " +:+ text ])
           (w_fetches w)).
Proof.
  intros Hmk Hst.
  pose proof (stat_after_mkdir _ _ _ _ _ Hmk Hst) as Hst1.
  destruct (download_checked_exists hf t
              (mk_world fs1 ((w_out w ++ [round_line count i t]) ++ announce t)
                 (w_fetches w)) n Hst1) as (text & Ht & Hrun).
  exists text. split; [exact Ht |].
  rewrite main_step_run,
    (download_model_mkdir hf t (printed w [round_line count i t]) fs1 Hmk).
  unfold printed. cbn [w_fs w_out w_fetches]. rewrite Hrun. unfold printed, size_at.
  cbn [w_fs w_out w_fetches]. rewrite Hst1.
  do 2 f_equal. rewrite <- !app_assoc. reflexivity.
Qed.

(** X9. In a tree-shaped filesystem, for a task whose filename is a
    relative path that names something below the directory: if the target
    is an existing file, the round succeeds without any condition on the
    directory (it is there already), makes no call of the fetch service,
    leaves the filesystem exactly as it was, and adds one to the count and
    the size of the file to the total. *)
Theorem existing_file_needs_no_fetch
    (hf : fetch_service) (count i : Z) (t : model_info) (c tot : Z)
    (w : world) (s : off_t) :
  fs_tree (w_fs w) ->
  startswith (filename t) "/" = false ->
  path_parts (filename t) <> [] ->
  stat (w_fs w) (target_path t) = Some (File s) ->
  exists text,
    format_file_size (off_val s) = Some text /\
    main_step hf count i t (c, tot) w
    = Done (c + 1, tot + off_val s)
        (mk_world (w_fs w)
           (w_out w ++ round_line count i t :: announce t
              ++ [ "✓ File already exists: " +:+ target_path t;
                   "  Size: " +:+ text ])
           (w_fetches w)).
Proof.
  intros Htree Hrel Hne Hst.
  assert (Hmk : mkdir_p (local_dir t) (w_fs w) = Some (w_fs w)).
  { apply mkdir_p_noop. by apply target_in_dir with (filename t) (File s). }
  exact (main_step_existing hf count i t c tot w (w_fs w) (File s) Hmk Hst).
Qed.

Lemma existing_file_needs_no_fetch_witness :
  fs_tree (w_fs world_have_2bit) /\
  startswith (filename model_2bit) "/" = false /\
  path_parts (filename model_2bit) <> [] /\
  stat (w_fs world_have_2bit) (target_path model_2bit) = Some (File (bytes 4242)) /\
  result_of (main_step fetch_raises 3 1 model_2bit (0, 0) world_have_2bit)
    = Some (1, 4242).
Proof.
  assert (H1 : fs_tree (w_fs world_have_2bit)).
  { intros p c [n Hn]. unfold world_have_2bit, fs_have_2bit in Hn |- *.
    cbn [w_fs fs_nodes] in Hn.
    destruct (decide (p ++ [c] = ["project"; "models"; "2bit"; "Qwen2.5-Coder-3B-Instruct-Q2_K.gguf"]%string)) as [E | N1].
    { change ["project"; "models"; "2bit"; "Qwen2.5-Coder-3B-Instruct-Q2_K.gguf"]%string
        with (["project"; "models"; "2bit"]%string ++ ["Qwen2.5-Coder-3B-Instruct-Q2_K.gguf"%string]) in E.
      apply app_inj_tail in E as [-> _]. eexists. reflexivity. }
    rewrite lookup_insert_ne in Hn by done.
    destruct (decide (p ++ [c] = ["project"; "models"; "2bit"]%string)) as [E | N2].
    { change ["project"; "models"; "2bit"]%string
        with (["project"; "models"]%string ++ ["2bit"%string]) in E.
      apply app_inj_tail in E as [-> _]. eexists. reflexivity. }
    rewrite lookup_insert_ne in Hn by done.
    destruct (decide (p ++ [c] = ["project"; "models"]%string)) as [E | N3].
    { change ["project"; "models"]%string
        with (["project"%string] ++ ["models"%string]) in E.
      apply app_inj_tail in E as [-> _]. eexists. reflexivity. }
    rewrite lookup_insert_ne in Hn by done.
    rewrite lookup_empty in Hn. discriminate. }
  assert (H2 : startswith (filename model_2bit) "/" = false) by reflexivity.
  assert (H3 : path_parts (filename model_2bit) <> []) by discriminate.
  assert (H4 : stat (w_fs world_have_2bit) (target_path model_2bit)
               = Some (File (bytes 4242))) by reflexivity.
  split; [exact H1 |]. split; [exact H2 |]. split; [exact H3 |]. split; [exact H4 |].
  destruct (existing_file_needs_no_fetch fetch_raises 3 1 model_2bit 0 0
              world_have_2bit (bytes 4242) H1 H2 H3 H4) as (text & _ & Hrun).
  rewrite Hrun. reflexivity.
Defined.

(** ** [list_files.py] *)

Lemma list_repo_answers (svc : listing_service) (repo : string) (w : world) :
  listing_answers svc repo ->
  list_repo svc repo w = Done tt (printed w (repo_lines svc repo)).
Proof.
  intros Hans. unfold repo_lines. destruct (svc repo) as [files | e | class] eqn:Hs.
  - by apply list_repo_listed.
  - by apply list_repo_error.
  - by destruct (Hans class).
Qed.

Lemma list_files_on_answers (svc : listing_service) (sources : list string)
    (w : world) :
  (forall repo, In repo sources -> listing_answers svc repo) ->
  list_files_on svc sources w
  = Done tt (printed w (concat (map (repo_lines svc) sources))).
Proof.
  revert w. induction sources as [| repo sources IH]; intros w Hans.
  - unfold printed. cbn. rewrite app_nil_r. destruct w; reflexivity.
  - cbn [list_files_on map concat]. unfold bind.
    rewrite (list_repo_answers svc repo w) by (apply Hans; by left).
    rewrite IH by (intros r Hr; apply Hans; by right).
    unfold printed. cbn [w_fs w_out w_fetches].
    rewrite <- app_assoc. reflexivity.
Qed.

Lemma list_files_on_app (svc : listing_service) (a b : list string) (w : world) :
  list_files_on svc (a ++ b) w
  = match list_files_on svc a w with
    | Done _ w' => list_files_on svc b w'
    | Raised e w' => Raised e w'
    end.
Proof.
  revert w. induction a as [| repo a IH]; intros w; [reflexivity |].
  cbn [list_files_on app]. unfold bind.
  destruct (list_repo svc repo w) as [u w1 | e w1]; [apply IH | reflexivity].
Qed.

(** X10. The listing script touches neither the filesystem nor the fetch
    service, and catches every [Exception] of the listing service: when
    the service raises nothing outside [Exception] for the sources of the
    list, the script ends normally, having printed, source after source
    in the order of the list, the header of the source followed by its
    matching filenames or by the diagnostic of its listing error. What
    the service raises outside [Exception] ([KeyboardInterrupt],
    [SystemExit]) is not caught: the script ends with it at the first such
    source, after the header of that source, and the later sources are not
    listed. *)
Theorem list_files_on_output
    (svc : listing_service) (sources : list string) (w : world) :
  ((forall repo, In repo sources -> listing_answers svc repo) ->
   list_files_on svc sources w
   = Done tt (printed w (concat (map (repo_lines svc) sources)))) /\
  (forall (pre post : list string) (repo class : string),
     sources = pre ++ repo :: post ->
     (forall r, In r pre -> listing_answers svc r) ->
     svc repo = ListingAbort class ->
     list_files_on svc sources w
     = Raised (BaseException class "")
         (printed w (concat (map (repo_lines svc) (pre ++ [repo]))))).
Proof.
  split; [apply list_files_on_answers |].
  intros pre post repo class -> Hpre Hab.
  rewrite list_files_on_app, (list_files_on_answers svc pre w Hpre).
  cbn [list_files_on]. unfold bind.
  rewrite (list_repo_aborted svc repo class _ Hab).
  rewrite map_app, concat_app. cbn [map concat]. unfold repo_lines at 3.
  rewrite Hab, app_nil_r. unfold printed. cbn [w_fs w_out w_fetches].
  rewrite <- app_assoc. reflexivity.
Qed.

Lemma str_app_inv_length (a a' b b' : string) :
  a +:+ b = a' +:+ b' -> String.length b = String.length b' -> b = b'.
Proof.
  revert a'. induction a as [| x a IH]; intros a' Heq Hlen.
  - destruct a' as [| y a']; [exact Heq |].
    exfalso. change ("" +:+ b) with b in Heq. subst b.
    change (String y a' +:+ b') with (String y (a' +:+ b')) in Hlen.
    cbn [String.length] in Hlen. rewrite str_length_append in Hlen. lia.
  - destruct a' as [| y a'].
    + exfalso. change ("" +:+ b') with b' in Heq. subst b'.
      change (String x a +:+ b) with (String x (a +:+ b)) in Hlen.
      cbn [String.length] in Hlen. rewrite str_length_append in Hlen. lia.
    + change (String x (a +:+ b) = String y (a' +:+ b')) in Heq.
      injection Heq as _ Heq. by apply IH with a'.
Qed.

(** X11. The suffix test of the listing is exact and case-sensitive in
    general: a filename whose last five characters are anything but
    ".gguf" (".GGUF", ".Gguf", ...) is not reported, nor is a filename
    shorter than five characters; a filename made of any text followed by
    ".gguf" is. *)
Theorem gguf_suffix_is_exact (stem ending : string) :
  String.length ending = 5%nat ->
  (endswith (stem +:+ ending) ".gguf" = true <-> ending = ".gguf"%string) /\
  (forall short : string,
     (String.length short < 5)%nat -> endswith short ".gguf" = false).
Proof.
  intros Hlen. split.
  - split.
    + intros H. apply endswith_spec in H as [stem' Heq].
      by apply str_app_inv_length with stem stem'.
    + intros ->. apply endswith_spec. by exists stem.
  - intros short Hshort. unfold endswith.
    replace (String.length ".gguf" <=? String.length short)%nat with false;
      [reflexivity |].
    symmetry. apply Nat.leb_gt. exact Hshort.
Qed.

Lemma gguf_suffix_is_exact_witness :
  String.length ".GGUF" = 5%nat /\ endswith "c.GGUF" ".gguf" = false.
Proof.
  assert (H : String.length ".GGUF" = 5%nat) by reflexivity.
  split; [exact H |].
  destruct (gguf_suffix_is_exact "c" ".GGUF" H) as [[Hto _] _].
  destruct (endswith ("c" +:+ ".GGUF") ".gguf") eqn:E; [| exact E].
  specialize (Hto eq_refl). discriminate Hto.
Defined.

(** ** Running again *)

(** X12. Running again skips what was downloaded: after a round in which
    the fetch service stored the file at the target path, a second
    [download_model] on the same task (its directory still being
    creatable) answers [True] from the existence check, with no further
    call of the fetch service. *)
Theorem rerun_skips_downloaded
    (hf : fetch_service) (t : model_info) (w : world)
    (fs1 fs2 fs3 : filesystem) (n : node) :
  mkdir_p (local_dir t) (w_fs w) = Some fs1 ->
  stat fs1 (target_path t) = None ->
  hf (repo_id t) (filename t) (local_dir t) fs1 = (Fetched (target_path t), fs2) ->
  stat fs2 (target_path t) = Some n ->
  mkdir_p (local_dir t) fs2 = Some fs3 ->
  exists w1 w2,
    download_model hf t w = Done true w1 /\
    download_model hf t w1 = Done true w2 /\
    w_fetches w1 = w_fetches w ++ [request_of t] /\
    w_fetches w2 = w_fetches w1 /\
    w_fs w2 = fs3 /\
    stat fs3 (target_path t) = Some n.
Proof.
  intros Hmk Hst Hf Hp Hmk2.
  destruct (download_checked_fetched hf t
              (mk_world fs1 (w_out w ++ announce t) (w_fetches w))
              (target_path t) fs2 n Hst Hf Hp) as (text & _ & Hrun1).
  cbn [w_fs w_out w_fetches] in Hrun1.
  pose proof (stat_after_mkdir _ _ _ _ _ Hmk2 Hp) as Hst3.
  set (w1 := mk_world fs2
               ((w_out w ++ announce t)
                  ++ [ "   Downloading... (this may take a while)";
                       "✓ Successfully downloaded: " +:+ target_path t;
                       "  Size: " +:+ text ])
               (w_fetches w ++ [(repo_id t, filename t, local_dir t)])) in *.
  destruct (download_checked_exists hf t
              (mk_world fs3 (w_out w1 ++ announce t) (w_fetches w1))
              n Hst3) as (text' & _ & Hrun2).
  exists w1, (printed (mk_world fs3 (w_out w1 ++ announce t) (w_fetches w1))
                [ "✓ File already exists: " +:+ target_path t;
                  "  Size: " +:+ text' ]).
  split; [| split].
  - rewrite (download_model_mkdir hf t w fs1 Hmk). exact Hrun1.
  - rewrite (download_model_mkdir hf t w1 fs3 Hmk2). exact Hrun2.
  - cbn [w_fs w_out w_fetches printed w1]. repeat split. exact Hst3.
Qed.

Lemma rerun_skips_downloaded_witness :
  mkdir_p (local_dir model_2bit) (w_fs world0) = Some fs_2bit_dirs /\
  exists w1 w2,
    download_model (fetch_stores (bytes 100)) model_2bit world0 = Done true w1 /\
    download_model (fetch_stores (bytes 100)) model_2bit w1 = Done true w2 /\
    w_fetches w2 = [request_of model_2bit].
Proof.
  assert (H1 : mkdir_p (local_dir model_2bit) (w_fs world0) = Some fs_2bit_dirs)
    by reflexivity.
  split; [exact H1 |].
  destruct (rerun_skips_downloaded (fetch_stores (bytes 100)) model_2bit world0
              _ _ _ (File (bytes 100)) H1 eq_refl eq_refl eq_refl eq_refl)
    as (w1 & w2 & Hr1 & Hr2 & Hf1 & Hf2 & _).
  exists w1, w2. split; [exact Hr1 |]. split; [exact Hr2 |].
  rewrite Hf2, Hf1. reflexivity.
Defined.
